(** * WebTerm: the command interpreter and the simulated filesystem

    A shallow embedding of the terminal emulator of fynks/webterm.  The
    repository ships the emulator twice: [script.js], the single
    distribution variant with a hard-wired filesystem, and the
    multi-distribution variant (the second [WebTerminal] class, with
    [setupFileSystemFromConfig], [switchDistro] and [listDistros]).  The
    functions the two files share word for word are embedded once; the ones
    that differ ([enhanceConfig], [handleCommand], the initial filesystem)
    are embedded per variant.

    Conventions.
    - A JavaScript string is a [string]; the characters outside ASCII that
      occur in the messages are kept as their UTF-8 bytes.  [toLowerCase],
      [trim] and the [\s] class are modelled on ASCII.
    - A value that may be [undefined] is an [option].
    - The DOM is reduced to what the program reads back from it: the lines of
      the output pane, the value of the input box, and whether the
      suggestion box is shown. *)

From Stdlib Require Import String Ascii List ZArith Lia Bool.
From stdpp Require Import gmap strings list.

Local Open Scope string_scope.
Local Open Scope list_scope.

(** ** JavaScript string primitives *)

Module Js.

(** [s.startsWith(p)] *)
Definition startsWith (s p : string) : bool := String.prefix p s.

Fixpoint drop_str (n : nat) (s : string) : string :=
  match n, s with
  | O, _ => s
  | S n', String _ s' => drop_str n' s'
  | S _, EmptyString => EmptyString
  end.

(** [s.endsWith(p)] *)
Definition endsWith (s p : string) : bool :=
  Nat.leb (String.length p) (String.length s) &&
  String.eqb (drop_str (String.length s - String.length p) s) p.

(** The first occurrence of [pat] in [s], as the text before it and the text
    after it. *)
Fixpoint find_first (pat s : string) : option (string * string) :=
  if String.prefix pat s then Some (EmptyString, drop_str (String.length pat) s)
  else match s with
       | EmptyString => None
       | String c s' =>
           match find_first pat s' with
           | Some (before, after) => Some (String c before, after)
           | None => None
           end
       end.

(** The replacement text of [String.prototype.replace] when the pattern is a
    string (no capture groups): [$$] is a dollar sign, [$&] the matched text,
    [$`] the text before the match, [$'] the text after it; every other
    character, a lone [$] included, stands for itself. *)
Fixpoint getSubstitution (matched before after repl : string) : string :=
  match repl with
  | EmptyString => EmptyString
  | String "$" (String "$" r) => "$" +:+ getSubstitution matched before after r
  | String "$" (String "&" r) => matched +:+ getSubstitution matched before after r
  | String "$" (String "`" r) => before +:+ getSubstitution matched before after r
  | String "$" (String "'" r) => after +:+ getSubstitution matched before after r
  | String c r => String c (getSubstitution matched before after r)
  end.

(** [s.replace(pat, repl)] with a string pattern: only the first occurrence
    is replaced. *)
Definition replace (s pat repl : string) : string :=
  match find_first pat s with
  | Some (before, after) =>
      before +:+ getSubstitution pat before after repl +:+ after
  | None => s
  end.

(** The white space of [\s] and of [trim], on ASCII: tab, line feed, vertical
    tab, form feed, carriage return and space. *)
Definition is_space (c : ascii) : bool :=
  let n := nat_of_ascii c in
  (Nat.leb 9 n && Nat.leb n 13) || Nat.eqb n 32.

Fixpoint trimStart (s : string) : string :=
  match s with
  | String c s' => if is_space c then trimStart s' else s
  | EmptyString => EmptyString
  end.

Fixpoint trimEnd (s : string) : string :=
  match s with
  | EmptyString => EmptyString
  | String c s' =>
      match trimEnd s' with
      | EmptyString => if is_space c then EmptyString else String c EmptyString
      | t => String c t
      end
  end.

(** [s.trim()] *)
Definition trim (s : string) : string := trimEnd (trimStart s).

(** [s.split(/\s+/)]: the pieces between the maximal runs of white space;
    a run at either end leaves an empty piece there.  [cur] is the piece
    being read, [in_ws] tells whether the previous character was white
    space. *)
Fixpoint split_ws_from (cur : string) (in_ws : bool) (s : string) : list string :=
  match s with
  | EmptyString => [cur]
  | String c s' =>
      if is_space c
      then if in_ws then split_ws_from cur true s'
           else cur :: split_ws_from EmptyString true s'
      else split_ws_from (cur +:+ String c EmptyString) false s'
  end.

Definition split_ws (s : string) : list string :=
  split_ws_from EmptyString false s.

(** [s.split(sep)] for a one-character separator. *)
Fixpoint split_on_from (sep : ascii) (cur : string) (s : string) : list string :=
  match s with
  | EmptyString => [cur]
  | String c s' =>
      if Ascii.eqb c sep then cur :: split_on_from sep EmptyString s'
      else split_on_from sep (cur +:+ String c EmptyString) s'
  end.

Definition split_on (sep : ascii) (s : string) : list string :=
  split_on_from sep EmptyString s.

(** [l.join(sep)] *)
Fixpoint join (sep : string) (l : list string) : string :=
  match l with
  | [] => EmptyString
  | [x] => x
  | x :: rest => x +:+ sep +:+ join sep rest
  end.

Definition lower_ascii (c : ascii) : ascii :=
  let n := nat_of_ascii c in
  if Nat.leb 65 n && Nat.leb n 90 then ascii_of_nat (n + 32) else c.

(** [s.toLowerCase()] *)
Fixpoint toLowerCase (s : string) : string :=
  match s with
  | EmptyString => EmptyString
  | String c s' => String (lower_ascii c) (toLowerCase s')
  end.

(** [s.repeat(n)] *)
Fixpoint repeat (s : string) (n : nat) : string :=
  match n with
  | O => EmptyString
  | S n' => s +:+ repeat s n'
  end.

(** [s.padStart(n)]: pads with spaces on the left up to length [n]. *)
Definition padStart (s : string) (n : nat) : string :=
  repeat " " (n - String.length s) +:+ s.

Definition digit (n : nat) : ascii := ascii_of_nat (48 + n).

Fixpoint nat_to_string_fuel (fuel n : nat) (acc : string) : string :=
  match fuel with
  | O => acc
  | S fuel' =>
      let acc' := String (digit (n mod 10)) acc in
      if Nat.ltb n 10 then acc' else nat_to_string_fuel fuel' (n / 10) acc'
  end.

(** [n.toString()] for a natural number. *)
Definition nat_to_string (n : nat) : string := nat_to_string_fuel (S n) n EmptyString.

(** The property names every plain object inherits from [Object.prototype].
    Reading one of them from an object that has no own property of that name
    yields the inherited member: an object or a function, hence truthy, and
    one on which every field this program reads is [undefined], except
    [name]. *)
Definition object_prototype_names : list string :=
  [ "constructor"; "hasOwnProperty"; "isPrototypeOf"; "propertyIsEnumerable";
    "toLocaleString"; "toString"; "valueOf"; "__proto__";
    "__defineGetter__"; "__defineSetter__"; "__lookupGetter__"; "__lookupSetter__" ].

Definition is_prototype_name (k : string) : bool :=
  existsb (String.eqb k) object_prototype_names.

(** What [obj[k]] evaluates to. *)
Inductive value (A : Type) : Type :=
| Own (a : A)          (* an own property *)
| Inherited            (* a member of [Object.prototype] *)
| Undefined.
Arguments Own {A} a.
Arguments Inherited {A}.
Arguments Undefined {A}.

Definition get {A} (own : option A) (k : string) : value A :=
  match own with
  | Some a => Own a
  | None => if is_prototype_name k then Inherited else Undefined
  end.

End Js.

(** ** Data model *)

(** The [output] of a command descriptor: one string or an array of lines. *)
Inductive Output : Type :=
| OutStr (s : string)
| OutArr (lines : list string).

(** A command descriptor of the configuration; every field is optional. *)
Record CmdObj : Type := mkCmdObj {
  description : option string;
  output : option Output;
  action : option string
}.

(** An object whose keys are enumerated ([Object.keys], [Object.entries],
    spread): the own properties in enumeration order, one pair per key.  The
    program only ever adds command names that are not array indices, so a new
    key goes to the end of the enumeration. *)
Definition JsObject (A : Type) : Type := list (string * A).

Definition Table : Type := JsObject CmdObj.

Fixpoint own_lookup {A} (k : string) (o : JsObject A) : option A :=
  match o with
  | [] => None
  | (k', v) :: rest => if String.eqb k k' then Some v else own_lookup k rest
  end.

(** [o[k] = v] *)
Fixpoint obj_set {A} (k : string) (v : A) (o : JsObject A) : JsObject A :=
  match o with
  | [] => [(k, v)]
  | (k', v') :: rest =>
      if String.eqb k k' then (k', v) :: rest else (k', v') :: obj_set k v rest
  end.

(** [Object.keys(o)] *)
Definition Object_keys {A} (o : JsObject A) : list string := map fst o.

(** [o[k]], through the prototype when [k] is no own property. *)
Definition obj_get {A} (o : JsObject A) (k : string) : Js.value A :=
  Js.get (own_lookup k o) k.

(** A node of the simulated filesystem, tagged by its [type] field. *)
Inductive FsNode : Type :=
| Directory (contents : list string) (parent : string)
| File (content : string) (parent : string).

Definition node_parent (n : FsNode) : string :=
  match n with
  | Directory _ p => p
  | File _ p => p
  end.

Definition is_directory (n : FsNode) : bool :=
  match n with Directory _ _ => true | File _ _ => false end.

(** [this.fileSystem]: keyed by absolute path and never enumerated.  Every
    path the program reads begins with a slash, so that no read goes to a
    member of [Object.prototype] in a state the program reaches; [fs_get]
    follows the prototype all the same. *)
Abbreviation FileSystem := (gmap string FsNode).

(** [this.fileSystem[path]] *)
Definition fs_get (fs : FileSystem) (path : string) : Js.value FsNode :=
  Js.get (fs !! path) path.

(** [config.system] *)
Record System : Type := mkSystem {
  user : string;
  host : string;
  commandNotFound : string
}.

Record Config : Type := mkConfig {
  system : System;
  filesystem : JsObject (list string);
  files : JsObject string;
  motd : option (list string);
  commands : Table
}.

(** An entry of [distroManager.distributions]. *)
Record Distro : Type := mkDistro {
  name : string;
  configFile : string;
  icon : string;
  distro_description : string
}.

Record DistroManager : Type := mkDistroManager {
  defaultDistro : string;
  distributions : JsObject Distro
}.

(** A line of the output pane: its text and its style class. *)
Record Line : Type := mkLine {
  text : string;
  className : string
}.

Record Suggestion : Type := mkSuggestion {
  command : string;
  suggestion_description : string
}.

(** The terminal object together with what it keeps in the page. *)
Record Terminal : Type := mkTerminal {
  config : Config;
  distroManager : DistroManager;
  currentDistro : string;
  commandHistory : list string;
  historyIndex : nat;
  currentPath : string;
  commandCount : nat;
  currentTheme : string;
  suggestions : list Suggestion;
  selectedSuggestionIndex : Z;
  fileSystem : FileSystem;
  terminalOutput : list Line;        (* children of #terminal-output *)
  commandInput : string;             (* value of #command-input *)
  suggestionsShown : bool;           (* class show on #suggestions *)
  clock : string;                    (* what new Date().toString() returns *)
  storedDistro : option string;      (* localStorage terminal-distro *)
  reloadScheduled : bool             (* the timer of switchDistro *)
}.

Section Setters.
Variable t : Terminal.

Definition set_config (c : Config) : Terminal :=
  mkTerminal c (distroManager t) (currentDistro t) (commandHistory t)
    (historyIndex t) (currentPath t) (commandCount t) (currentTheme t)
    (suggestions t) (selectedSuggestionIndex t) (fileSystem t)
    (terminalOutput t) (commandInput t) (suggestionsShown t) (clock t)
    (storedDistro t) (reloadScheduled t).

Definition set_history (h : list string) (i : nat) : Terminal :=
  mkTerminal (config t) (distroManager t) (currentDistro t) h
    i (currentPath t) (commandCount t) (currentTheme t)
    (suggestions t) (selectedSuggestionIndex t) (fileSystem t)
    (terminalOutput t) (commandInput t) (suggestionsShown t) (clock t)
    (storedDistro t) (reloadScheduled t).

Definition set_currentPath (p : string) : Terminal :=
  mkTerminal (config t) (distroManager t) (currentDistro t) (commandHistory t)
    (historyIndex t) p (commandCount t) (currentTheme t)
    (suggestions t) (selectedSuggestionIndex t) (fileSystem t)
    (terminalOutput t) (commandInput t) (suggestionsShown t) (clock t)
    (storedDistro t) (reloadScheduled t).

Definition set_commandCount (n : nat) : Terminal :=
  mkTerminal (config t) (distroManager t) (currentDistro t) (commandHistory t)
    (historyIndex t) (currentPath t) n (currentTheme t)
    (suggestions t) (selectedSuggestionIndex t) (fileSystem t)
    (terminalOutput t) (commandInput t) (suggestionsShown t) (clock t)
    (storedDistro t) (reloadScheduled t).

Definition set_currentTheme (th : string) : Terminal :=
  mkTerminal (config t) (distroManager t) (currentDistro t) (commandHistory t)
    (historyIndex t) (currentPath t) (commandCount t) th
    (suggestions t) (selectedSuggestionIndex t) (fileSystem t)
    (terminalOutput t) (commandInput t) (suggestionsShown t) (clock t)
    (storedDistro t) (reloadScheduled t).

Definition set_suggestions (s : list Suggestion) (sel : Z) (shown : bool) : Terminal :=
  mkTerminal (config t) (distroManager t) (currentDistro t) (commandHistory t)
    (historyIndex t) (currentPath t) (commandCount t) (currentTheme t)
    s sel (fileSystem t)
    (terminalOutput t) (commandInput t) shown (clock t)
    (storedDistro t) (reloadScheduled t).

Definition set_fileSystem (fs : FileSystem) : Terminal :=
  mkTerminal (config t) (distroManager t) (currentDistro t) (commandHistory t)
    (historyIndex t) (currentPath t) (commandCount t) (currentTheme t)
    (suggestions t) (selectedSuggestionIndex t) fs
    (terminalOutput t) (commandInput t) (suggestionsShown t) (clock t)
    (storedDistro t) (reloadScheduled t).

Definition set_terminalOutput (out : list Line) : Terminal :=
  mkTerminal (config t) (distroManager t) (currentDistro t) (commandHistory t)
    (historyIndex t) (currentPath t) (commandCount t) (currentTheme t)
    (suggestions t) (selectedSuggestionIndex t) (fileSystem t)
    out (commandInput t) (suggestionsShown t) (clock t)
    (storedDistro t) (reloadScheduled t).

Definition set_commandInput (v : string) : Terminal :=
  mkTerminal (config t) (distroManager t) (currentDistro t) (commandHistory t)
    (historyIndex t) (currentPath t) (commandCount t) (currentTheme t)
    (suggestions t) (selectedSuggestionIndex t) (fileSystem t)
    (terminalOutput t) v (suggestionsShown t) (clock t)
    (storedDistro t) (reloadScheduled t).

Definition set_reload (d : string) : Terminal :=
  mkTerminal (config t) (distroManager t) (currentDistro t) (commandHistory t)
    (historyIndex t) (currentPath t) (commandCount t) (currentTheme t)
    (suggestions t) (selectedSuggestionIndex t) (fileSystem t)
    (terminalOutput t) (commandInput t) (suggestionsShown t) (clock t)
    (Some d) true.
End Setters.

Definition set_commands (c : Config) (tbl : Table) : Config :=
  mkConfig (system c) (filesystem c) (files c) (motd c) tbl.

(** [this.renderLine(text, className = '')] *)
Definition renderLine (txt : string) (cls : string) (t : Terminal) : Terminal :=
  set_terminalOutput t (terminalOutput t ++ [mkLine txt cls]).

(** The double quote character, as a string. *)
Definition dquote : string := String (ascii_of_nat 34) EmptyString.

(** An [undefined] spliced into a template literal reads [undefined]. *)
Definition interpolate (o : option string) : string :=
  match o with Some s => s | None => "undefined" end.

(** [!s] for a string that may be [undefined]. *)
Definition falsy (o : option string) : bool :=
  match o with
  | None => true
  | Some s => String.eqb s EmptyString
  end.

(** [s || fallback] *)
Definition or_else (o : option string) (fallback : string) : string :=
  match o with
  | Some s => if String.eqb s EmptyString then fallback else s
  | None => fallback
  end.

(** ** The filesystem built from the configuration *)

(** [getParentPath(path)] *)
Definition getParentPath (path : string) : string :=
  let parts := List.filter (fun part => negb (String.eqb part EmptyString)) (Js.split_on "/" path) in
  if Nat.leb (length parts) 1 then "/"
  else "/" +:+ Js.join "/" (removelast parts).

(** The body of the first loop of [setupFileSystemFromConfig], for one entry
    of [config.filesystem]. *)
Definition setupDirectory (usr : string) (fs : FileSystem)
    (entry : string * list string) : FileSystem :=
  let '(path, contents) := entry in
  let fullPath := Js.replace path "~" ("/home/" +:+ usr) in
  let fs1 :=
    <[ fullPath :=
         Directory
           (map (fun item => Js.replace item "/" EmptyString)
                (List.filter (fun item => negb (Js.endsWith item "/")) contents))
           (getParentPath fullPath) ]> fs in
  fold_left
    (fun fs' dir =>
       let dirName := Js.replace dir "/" EmptyString in
       let dirPath := fullPath +:+ "/" +:+ dirName in
       <[ dirPath := Directory [] fullPath ]> fs')
    (List.filter (fun item => Js.endsWith item "/") contents)
    fs1.

(** The body of the second loop, for one entry of [config.files]. *)
Definition setupFile (usr : string) (fs : FileSystem)
    (entry : string * string) : FileSystem :=
  let '(filename, content) := entry in
  let filePath := "/home/" +:+ usr +:+ "/" +:+ filename in
  <[ filePath := File content ("/home/" +:+ usr) ]> fs.

(** [setupFileSystemFromConfig()] *)
Definition setupFileSystemFromConfig (cfg : Config) : FileSystem :=
  let usr := user (system cfg) in
  let dirs := fold_left (setupDirectory usr) (filesystem cfg) ∅ in
  fold_left (setupFile usr) (files cfg) dirs.

(** ** The command table *)

Definition truthy {A} (v : Js.value A) : bool :=
  match v with
  | Js.Undefined => false
  | _ => true
  end.

(** The fields of [commands[k]]; on an inherited member they are all
    [undefined]. *)
Definition get_action (v : Js.value CmdObj) : option string :=
  match v with Js.Own c => action c | _ => None end.

Definition get_output (v : Js.value CmdObj) : option Output :=
  match v with Js.Own c => output c | _ => None end.

Definition action_cmd (descr act : string) : CmdObj :=
  mkCmdObj (Some descr) None (Some act).

(** [obj.output = s] *)
Definition set_output (s : string) (c : CmdObj) : CmdObj :=
  mkCmdObj (description c) (Some (OutStr s)) (action c).

Module Multi.

(** [coreCommands] of the multi-distribution [enhanceConfig]. *)
Definition coreCommands : Table :=
  [ ("cd", action_cmd "Change the current directory" "changeDirectory");
    ("mkdir", action_cmd "Create a new directory" "makeDirectory");
    ("touch", action_cmd "Create a new file" "createFile");
    ("rm", action_cmd "Remove files or directories" "removeFile");
    ("date", action_cmd "Display the current date and time" "showDate");
    ("history", action_cmd "Show command history" "showHistory");
    ("theme", action_cmd "Toggle between light and dark themes" "toggleTheme");
    ("clear", action_cmd "Clear the terminal screen" "clearScreen") ].

Definition switch_distro_cmd : CmdObj :=
  action_cmd "Switch to a different Linux distribution" "switchDistro".

Definition list_distros_cmd : CmdObj :=
  action_cmd "List available Linux distributions" "listDistros".

(** The loop that merges the core commands: an entry is added only where
    the table has nothing truthy under its key. *)
Definition mergeCore (core cmds : Table) : Table :=
  fold_left
    (fun acc (entry : string * CmdObj) =>
       let '(cmd, info) := entry in
       if truthy (obj_get acc cmd) then acc else obj_set cmd info acc)
    core cmds.

(** [obj[k].output = s], guarded by [if (obj[k])]. *)
Definition stamp (k s : string) (cmds : Table) : Table :=
  match obj_get cmds k with
  | Js.Own c => obj_set k (set_output s c) cmds
  | _ => cmds
  end.

(** What [enhanceConfig] makes of [config.commands], given the user name
    and the current path. *)
Definition enhanceCommands (usr cwd : string) (cmds : Table) : Table :=
  let cmds1 := obj_set "switch-distro" switch_distro_cmd cmds in
  let cmds2 := obj_set "list-distros" list_distros_cmd cmds1 in
  let cmds3 := mergeCore coreCommands cmds2 in
  let cmds4 := stamp "whoami" usr cmds3 in
  stamp "pwd" cwd cmds4.

(** [enhanceConfig()] *)
Definition enhanceConfig (t : Terminal) : Terminal :=
  set_config t
    (set_commands (config t)
       (enhanceCommands (user (system (config t))) (currentPath t)
          (commands (config t)))).

(** [loadConfig()], once the configuration [cfg] has been fetched. *)
Definition loadConfig (cfg : Config) (t : Terminal) : Terminal :=
  let t1 := set_config t cfg in
  let t2 := set_fileSystem t1 (setupFileSystemFromConfig cfg) in
  let t3 := set_currentPath t2 ("/home/" +:+ user (system cfg)) in
  enhanceConfig t3.

End Multi.

Module Single.

(** [additionalCommands] of [enhanceConfig] in [script.js]. *)
Definition additionalCommands (usr : string) : Table :=
  [ ("cd", action_cmd "Change the current directory" "changeDirectory");
    ("mkdir", action_cmd "Create a new directory" "makeDirectory");
    ("touch", action_cmd "Create a new file" "createFile");
    ("rm", action_cmd "Remove files or directories" "removeFile");
    ("whoami", mkCmdObj (Some "Print the current username") (Some (OutStr usr)) None);
    ("date", action_cmd "Display the current date and time" "showDate");
    ("history", action_cmd "Show command history" "showHistory");
    ("theme", action_cmd "Toggle between light and dark themes" "toggleTheme");
    ("clear", action_cmd "Clear the terminal screen" "clearScreen") ].

(** The object literal [{ ...a, ...b }]: the properties of [a], then those
    of [b], each set in turn on a fresh object. *)
Definition spread (a b : Table) : Table :=
  fold_left (fun acc (entry : string * CmdObj) => obj_set (fst entry) (snd entry) acc)
    (a ++ b) [].

(** [enhanceConfig()] *)
Definition enhanceConfig (t : Terminal) : Terminal :=
  set_config t
    (set_commands (config t)
       (spread (commands (config t))
          (additionalCommands (user (system (config t)))))).

(** The filesystem literal of the constructor. *)
Definition initialFileSystem : FileSystem :=
  <[ "/home/user/notes.txt" :=
       File "Todo:
- Learn more about Arch Linux.
- Customize this terminal further." "/home/user" ]>
  (<[ "/home/user/README.md" :=
       File "Welcome to the interactive web terminal!

- Type 'help' to see available commands.
- This is a simulation, not a real shell.
- You can create your own config file for other Linux distros." "/home/user" ]>
  (<[ "/home/user/projects" :=
       Directory ["secret-project"; "old-stuff"] "/home/user" ]>
  (<[ "/home/user" :=
       Directory ["README.md"; "notes.txt"; "projects"] "/home" ]> ∅))).

End Single.

(** ** The interpreter *)

(** Which of the two files a definition is read from, where they differ. *)
Inductive Variant : Type :=
| SingleDistro      (* script.js *)
| MultiDistro.      (* the multi-distribution file *)

Inductive Direction : Type := Up | Down.

Definition renderLines (ls : list Line) (t : Terminal) : Terminal :=
  fold_left (fun t' l => renderLine (text l) (className l) t') ls t.

(** [resolvePath(path)] *)
Definition resolvePath (path : option string) (t : Terminal) : string :=
  match path with
  | None => currentPath t
  | Some p =>
      if String.eqb p EmptyString then currentPath t
      else if Js.startsWith p "/" then p
      else if String.eqb p ".." then
        match fs_get (fileSystem t) (currentPath t) with
        | Js.Own currentObj => or_else (Some (node_parent currentObj)) (currentPath t)
        | Js.Inherited => currentPath t
        | Js.Undefined => currentPath t
        end
      else if String.eqb p "." then currentPath t
      else Js.replace (currentPath t +:+ "/" +:+ p) "//" "/"
  end.

(** [handleCat(args)] *)
Definition handleCat (args : list string) (t : Terminal) : Terminal :=
  match args with
  | [] => renderLine "cat: missing file operand" "output-error" t
  | fileName :: _ =>
      let filePath := resolvePath (Some fileName) t in
      match fs_get (fileSystem t) filePath with
      | Js.Undefined =>
          renderLine ("cat: " +:+ fileName +:+ ": No such file or directory") "output-error" t
      | Js.Own (File content _) => renderLine content EmptyString t
      | _ => renderLine ("cat: " +:+ fileName +:+ ": Is a directory") "output-error" t
      end
  end.

(** The callback of [dirObj.contents.map] in [handleLs]. *)
Definition lsItem (fs : FileSystem) (targetPath item : string) : string :=
  let itemPath := Js.replace (targetPath +:+ "/" +:+ item) "//" "/" in
  match fs_get fs itemPath with
  | Js.Own (Directory _ _) => "📁 " +:+ item +:+ "/"
  | _ => "📄 " +:+ item
  end.

(** [handleLs(args)] *)
Definition handleLs (args : list string) (t : Terminal) : Terminal :=
  let targetPath :=
    match args with
    | [] => currentPath t
    | a :: _ => resolvePath (Some a) t
    end in
  match fs_get (fileSystem t) targetPath with
  | Js.Undefined =>
      renderLine ("ls: cannot access '" +:+ or_else (head args) "." +:+
                  "': No such file or directory") "output-error" t
  | Js.Own (Directory contents _) =>
      match contents with
      | [] => t
      | _ => renderLine (Js.join "  " (map (lsItem (fileSystem t) targetPath) contents)) EmptyString t
      end
  | _ => renderLine ("ls: " +:+ interpolate (head args) +:+ ": Not a directory") "output-error" t
  end.

(** [changeDirectory(path)]; [updatePath] only redraws the prompt. *)
Definition changeDirectory (path : option string) (t : Terminal) : Terminal :=
  if falsy path || String.eqb (interpolate path) "~" then
    set_currentPath t "/home/user"
  else
    let targetPath := resolvePath path t in
    match fs_get (fileSystem t) targetPath with
    | Js.Undefined =>
        renderLine ("cd: " +:+ interpolate path +:+ ": No such file or directory") "output-error" t
    | Js.Own (Directory _ _) => set_currentPath t targetPath
    | _ => renderLine ("cd: " +:+ interpolate path +:+ ": Not a directory") "output-error" t
    end.

(** [showHistory()] *)
Definition showHistory (t : Terminal) : Terminal :=
  match commandHistory t with
  | [] => renderLine "No commands in history" EmptyString t
  | _ =>
      renderLines
        (imap (fun index cmd =>
                 mkLine ("  " +:+ Js.padStart (Js.nat_to_string (index + 1)) 3 +:+ " " +:+ cmd) EmptyString)
              (commandHistory t))
        (renderLine "📜 Command History:" EmptyString t)
  end.

(** [showHelp()] *)
Definition showHelp (t : Terminal) : Terminal :=
  let t1 := renderLine "📋 Available Commands:" "output-success" t in
  let t2 := renderLine (Js.repeat "─" 50) EmptyString t1 in
  let t3 :=
    renderLines
      (map (fun entry : string * CmdObj =>
              let '(cmd, info) := entry in
              let padding := Js.repeat " " (15 - String.length cmd) in
              mkLine ("  " +:+ cmd +:+ padding +:+ or_else (description info) "No description") EmptyString)
           (commands (config t)))
      t2 in
  renderLines
    [ mkLine EmptyString EmptyString;
      mkLine "💡 Tips:" EmptyString;
      mkLine "  • Use Tab for auto-completion" EmptyString;
      mkLine "  • Use ↑/↓ arrows for command history" EmptyString;
      mkLine ("  • Type " +:+ dquote +:+ "theme" +:+ dquote +:+ " to toggle dark/light mode") EmptyString ]
    t3.

(** [distributions[k].name]: an inherited function carries its own name
    ([Object] for the constructor); the prototype object has none. *)
Definition distro_name (v : Js.value Distro) (k : string) : string :=
  match v with
  | Js.Own d => name d
  | Js.Inherited =>
      if String.eqb k "constructor" then "Object"
      else if String.eqb k "__proto__" then "undefined"
      else k
  | Js.Undefined => "undefined"
  end.

(** [listDistros()] *)
Definition listDistros (t : Terminal) : Terminal :=
  let t1 := renderLine "🐧 Available Linux Distributions:" "output-success" t in
  let t2 := renderLine (Js.repeat "─" 50) EmptyString t1 in
  let t3 :=
    renderLines
      (flat_map
         (fun entry : string * Distro =>
            let '(key, distro) := entry in
            let is_current := String.eqb key (currentDistro t) in
            let current := if is_current then " (current)" else EmptyString in
            let status := if is_current then "output-success" else EmptyString in
            [ mkLine ("  " +:+ icon distro +:+ " " +:+ name distro +:+ current) status;
              mkLine ("     " +:+ distro_description distro) EmptyString;
              mkLine ("     Command: switch-distro " +:+ key) EmptyString;
              mkLine EmptyString EmptyString ])
         (distributions (distroManager t)))
      t2 in
  renderLines
    [ mkLine "💡 Usage: switch-distro <distro-name>" EmptyString;
      mkLine "   Example: switch-distro ubuntu" EmptyString ]
    t3.

(** [switchDistro(distroName)]; the page reload it schedules is recorded in
    the state. *)
Definition switchDistro (distroName : option string) (t : Terminal) : Terminal :=
  if falsy distroName then
    renderLines
      [ mkLine "❌ Usage: switch-distro <distro-name>" "output-error";
        mkLine ("💡 Available distros: " +:+
                Js.join ", " (Object_keys (distributions (distroManager t)))) EmptyString ]
      t
  else
    let d := interpolate distroName in
    let entry := obj_get (distributions (distroManager t)) d in
    if negb (truthy entry) then
      renderLines
        [ mkLine ("❌ Unknown distribution: " +:+ d) "output-error";
          mkLine ("💡 Use " +:+ dquote +:+ "list-distros" +:+ dquote +:+
                  " to see available options") EmptyString ]
        t
    else if String.eqb d (currentDistro t) then
      renderLine ("✅ Already using " +:+ distro_name entry d) "output-success" t
    else
      set_reload
        (renderLine ("🔄 Switching to " +:+ distro_name entry d +:+ "...") "output-success" t)
        d.

(** [toggleTheme()] *)
Definition toggleTheme (t : Terminal) : Terminal :=
  let theme := if String.eqb (currentTheme t) "dark" then "light" else "dark" in
  renderLine ("🎨 Switched to " +:+ theme +:+ " theme") "output-success"
    (set_currentTheme t theme).

(** [clearScreen()] *)
Definition clearScreen (t : Terminal) : Terminal := set_terminalOutput t [].

(** [makeDirectory(name)] *)
Definition makeDirectory (name : option string) (t : Terminal) : Terminal :=
  if falsy name then renderLine "mkdir: missing operand" "output-error" t
  else renderLine ("📁 Created directory: " +:+ interpolate name) "output-success" t.

(** [createFile(name)] *)
Definition createFile (name : option string) (t : Terminal) : Terminal :=
  if falsy name then renderLine "touch: missing operand" "output-error" t
  else renderLine ("📄 Created file: " +:+ interpolate name) "output-success" t.

(** [removeFile(name)] *)
Definition removeFile (name : option string) (t : Terminal) : Terminal :=
  if falsy name then renderLine "rm: missing operand" "output-error" t
  else renderLine ("🗑️ Removed: " +:+ interpolate name) "output-warning" t.

(** [hideSuggestions()] *)
Definition hideSuggestions (t : Terminal) : Terminal :=
  set_suggestions t [] (-1) false.

Section Interpreter.
Variable v : Variant.

(** The [default] branch of the second [switch] of [handleCommand]: the
    static output of the descriptor. *)
Definition staticOutput (cmdObj : Js.value CmdObj) (t : Terminal) : Terminal :=
  match get_output cmdObj with
  | Some (OutArr lines) => renderLines (map (fun line => mkLine line EmptyString) lines) t
  | Some (OutStr s) => if String.eqb s EmptyString then t else renderLine s EmptyString t
  | None => t
  end.

(** The second [switch] of [handleCommand], on the command name. *)
Definition builtinCommand (cmdObj : Js.value CmdObj) (args : list string)
    (command : string) (t : Terminal) : Terminal :=
  if String.eqb command "help" then showHelp t
  else if String.eqb command "echo" then renderLine (Js.join " " args) EmptyString t
  else if String.eqb command "cat" then handleCat args t
  else if String.eqb command "ls" then handleLs args t
  else if String.eqb command "pwd" then renderLine (currentPath t) EmptyString t
  else staticOutput cmdObj t.

(** [handleCommand(cmdObj, args, command)]: an action tag that no [case]
    names falls out of the first [switch] into the second. *)
Definition handleCommand (cmdObj : Js.value CmdObj) (args : list string)
    (command : string) (t : Terminal) : Terminal :=
  match get_action cmdObj with
  | None => builtinCommand cmdObj args command t
  | Some a =>
      if String.eqb a EmptyString then builtinCommand cmdObj args command t
      else if String.eqb a "clearScreen" then clearScreen t
      else if String.eqb a "showDate" then renderLine (clock t) EmptyString t
      else if String.eqb a "showHistory" then showHistory t
      else if String.eqb a "toggleTheme" then toggleTheme t
      else if String.eqb a "changeDirectory" then changeDirectory (head args) t
      else if String.eqb a "makeDirectory" then makeDirectory (head args) t
      else if String.eqb a "createFile" then createFile (head args) t
      else if String.eqb a "removeFile" then removeFile (head args) t
      else
        match v with
        | MultiDistro =>
            if String.eqb a "switchDistro" then switchDistro (head args) t
            else if String.eqb a "listDistros" then listDistros t
            else builtinCommand cmdObj args command t
        | SingleDistro => builtinCommand cmdObj args command t
        end
  end.

(** [executeCommand(command, args, fullCommand)] *)
Definition executeCommand (command : string) (args : list string)
    (fullCommand : string) (t : Terminal) : Terminal :=
  let table := commands (config t) in
  if truthy (obj_get table fullCommand) then
    handleCommand (obj_get table fullCommand) args fullCommand t
  else if truthy (obj_get table command) then
    handleCommand (obj_get table command) args command t
  else
    let notFound := Js.replace (commandNotFound (system (config t))) "{cmd}" command in
    renderLine notFound "output-error" t.

(** The text of the prompt element, as [renderNewPromptLine] sets it. *)
Definition promptText (t : Terminal) : string :=
  let usr := user (system (config t)) in
  let hst := host (system (config t)) in
  match v with
  | SingleDistro =>
      let pathDisplay :=
        if String.eqb (currentPath t) "/home/user" then "~" else currentPath t in
      "[" +:+ usr +:+ "@" +:+ hst +:+ " " +:+ pathDisplay +:+ "]$"
  | MultiDistro =>
      let userHomePath := "/home/" +:+ usr in
      let pathDisplay :=
        if String.eqb (currentPath t) userHomePath then "~"
        else Js.replace (currentPath t) userHomePath "~" in
      usr +:+ "@" +:+ hst +:+ ":" +:+ pathDisplay +:+ "$ "
  end.

(** The history update of [processCommand]. *)
Definition pushHistory (fullCommand : string) (t : Terminal) : Terminal :=
  let history :=
    match last (commandHistory t) with
    | Some l => if String.eqb l fullCommand then commandHistory t
                else commandHistory t ++ [fullCommand]
    | None => commandHistory t ++ [fullCommand]
    end in
  set_history t history (length history).

(** [processCommand()] *)
Definition processCommand (t : Terminal) : Terminal :=
  let fullCommand := Js.trim (commandInput t) in
  let t1 := renderLine (promptText t +:+ " " +:+ fullCommand) "output-command" t in
  let t2 :=
    if String.eqb fullCommand EmptyString then t1
    else
      let t' := pushHistory fullCommand t1 in
      let t'' := set_commandCount t' (S (commandCount t')) in
      match Js.split_ws fullCommand with
      | command :: args => executeCommand command args fullCommand t''
      | [] => t''
      end in
  hideSuggestions (set_commandInput t2 EmptyString).

End Interpreter.

(** Typing [line] into the input box and pressing Enter. *)
Definition submit (v : Variant) (line : string) (t : Terminal) : Terminal :=
  processCommand v (set_commandInput t line).

(** ** Suggestions and history recall *)

(** [getCommandSuggestions(input)] *)
Definition getCommandSuggestions (input : string) (t : Terminal) : list Suggestion :=
  let table := commands (config t) in
  map (fun cmd =>
         mkSuggestion cmd
           (or_else (match obj_get table cmd with
                     | Js.Own c => description c
                     | _ => None
                     end) "No description"))
      (take 5
         (List.filter (fun cmd => Js.startsWith cmd (Js.toLowerCase input))
            (Object_keys table))).

(** [showSuggestions(input)], with [renderSuggestions] *)
Definition showSuggestions (input : string) (t : Terminal) : Terminal :=
  let matches := getCommandSuggestions input t in
  match matches with
  | [] => hideSuggestions (set_suggestions t matches (selectedSuggestionIndex t) (suggestionsShown t))
  | _ => set_suggestions t matches (-1) true
  end.

(** [navigateHistory(direction)] *)
Definition navigateHistory (direction : Direction) (t : Terminal) : Terminal :=
  match commandHistory t with
  | [] => t
  | _ =>
      let index :=
        match direction with
        | Up => if Nat.ltb 0 (historyIndex t) then historyIndex t - 1 else historyIndex t
        | Down =>
            if Nat.ltb (historyIndex t) (length (commandHistory t))
            then historyIndex t + 1 else historyIndex t
        end in
      let command := or_else (commandHistory t !! index) EmptyString in
      set_commandInput (set_history t (commandHistory t) index) command
  end.

(** [displayMotd()] *)
Definition displayMotd (t : Terminal) : Terminal :=
  match motd (config t) with
  | None => t
  | Some lines =>
      renderLine EmptyString EmptyString
        (renderLines (map (fun line => mkLine line EmptyString) lines) t)
  end.

(** The terminal of the multi-distribution file once [init] has run, for the
    registry [dm], the distribution [distro] chosen from it and its fetched
    configuration [cfg]; [now] is what the clock shows. *)
Definition bootMulti (dm : DistroManager) (distro : string) (cfg : Config)
    (now : string) : Terminal :=
  displayMotd
    (Multi.loadConfig cfg
       (mkTerminal cfg dm distro [] 0 "/home/user" 0 "dark" [] (-1) ∅ []
          EmptyString false now (Some distro) false)).

(** The terminal of [script.js] once [init] has run. *)
Definition bootSingle (cfg : Config) (now : string) : Terminal :=
  displayMotd
    (Single.enhanceConfig
       (mkTerminal cfg (mkDistroManager EmptyString []) EmptyString [] 0
          "/home/user" 0 "dark" [] (-1) Single.initialFileSystem []
          EmptyString false now None false)).

(** ** The configuration of the scenarios *)

Definition bashSystem (usr : string) : System :=
  mkSystem usr "webterm" "bash: {cmd}: command not found".

(** Directory [~] with entries [a.txt] and [sub/], file [a.txt] holding
    [hello]; the table has the built-ins that need an entry to run. *)
Definition scenarioConfig (usr : string) : Config :=
  mkConfig (bashSystem usr)
    [ ("~", ["a.txt"; "sub/"]) ]
    [ ("a.txt", "hello") ]
    None
    [ ("help", mkCmdObj (Some "Show available commands") None None);
      ("ls", mkCmdObj (Some "List directory contents") None None);
      ("cat", mkCmdObj (Some "Display file contents") None None);
      ("pwd", mkCmdObj (Some "Print working directory") (Some (OutStr "/home/user")) None);
      ("whoami", mkCmdObj (Some "Print the current username") (Some (OutStr "user")) None) ].

Definition scenarioRegistry : DistroManager :=
  mkDistroManager "arch"
    [ ("arch", mkDistro "Arch Linux" "config/arch_config.json" "A" "A rolling release") ].

Definition scenarioTerminal (usr : string) : Terminal :=
  bootMulti scenarioRegistry "arch" (scenarioConfig usr) "Mon Nov 02 2026".

(** ** Notions of the specification *)

(** The merge as the specification words it: the table built from the distro
    table [D] maps a key to [D]'s entry when [D] has one, and to the entry of
    the core defaults [C] otherwise. *)
Definition right_biased (build : Table -> Table) (C : Table) : Prop :=
  forall (D : Table) (k : string),
    own_lookup k (build D) =
    match own_lookup k D with
    | Some d => Some d
    | None => own_lookup k C
    end.

(** A distro table that brings its own [cd] and [whoami]. *)
Definition customTable : Table :=
  [ ("cd", mkCmdObj (Some "Go somewhere") (Some (OutStr "cd: not supported")) None);
    ("whoami", mkCmdObj (Some "Print the user") (Some (OutStr "root")) None) ].

(** A terminal of user [alice] holding that table, before [enhanceConfig]
    runs. *)
Definition customTerminal : Terminal :=
  mkTerminal (mkConfig (bashSystem "alice") [] [] None customTable)
    scenarioRegistry "arch" [] 0 "/home/alice" 0 "dark" [] (-1) ∅ []
    EmptyString false "Mon Nov 02 2026" (Some "arch") false.

(** An operation that is cosmetic: it emits one line and leaves the
    filesystem and the current path as they were. *)
Definition emits_only (t t' : Terminal) (line : Line) : Prop :=
  fileSystem t' = fileSystem t /\
  currentPath t' = currentPath t /\
  terminalOutput t' = terminalOutput t ++ [line].


(** The terminal of the scenario after [ls] and then [pwd] were submitted. *)
Definition historyTerminal : Terminal :=
  submit MultiDistro "pwd" (submit MultiDistro "ls" (scenarioTerminal "user")).


(** A configuration that declares the directory with the empty path, and
    the terminal it gives after [cd /sub]. *)
Definition rootlessConfig : Config :=
  mkConfig (bashSystem "user") [ (EmptyString, ["sub/"]) ] [] None [].

Definition rootlessTerminal : Terminal :=
  submit MultiDistro "cd /sub"
    (bootMulti scenarioRegistry "arch" rootlessConfig "Mon Nov 02 2026").

(** The not-found message as the specification words it: the template with
    its (first) [{cmd}] placeholder replaced by the command name. *)
Definition substitute_cmd (template cmd : string) : string :=
  match Js.find_first "{cmd}" template with
  | Some (before, after) => before +:+ cmd +:+ after
  | None => template
  end.


Fixpoint has_dollar (s : string) : bool :=
  match s with
  | EmptyString => false
  | String c s' => Ascii.eqb c "$" || has_dollar s'
  end.



(** What [setupFileSystemFromConfig] guarantees of the node [n] at path [p]:
    a File comes from [config.files] and has the home directory as parent; a
    Directory is either a declared one, whose parent field is computed from
    its own path, or an empty one whose parent field names a path of the
    mapping, one segment up. *)
Definition node_shape (usr : string) (fl : JsObject string) (fs : FileSystem)
    (p : string) (n : FsNode) : Prop :=
  match n with
  | File content parent =>
      parent = "/home/" +:+ usr /\
      exists filename,
        In (filename, content) fl /\ p = "/home/" +:+ usr +:+ "/" +:+ filename
  | Directory contents parent =>
      parent = getParentPath p \/
      (contents = [] /\ is_Some (fs !! parent) /\
       exists dirName, p = parent +:+ "/" +:+ dirName)
  end.

(** Every node of the mapping has that shape. *)
Definition all_shaped (usr : string) (fl : JsObject string) (fs : FileSystem) : Prop :=
  forall p n, fs !! p = Some n -> node_shape usr fl fs p n.

(** ** The keyboard and the other handlers *)

(** The keys [handleKeyDown] tells apart. *)
Inductive Key : Type :=
| Enter | Tab | ArrowUp | ArrowDown | Escape | OtherKey.

(** [navigateSuggestions(direction)]; [items] is the number of
    [.suggestion-item] elements in the suggestion box.  With a selection
    beyond the items the handler stops on [items[index].classList] before it
    updates anything. *)
Definition navigateSuggestions (direction : Direction) (items : nat)
    (t : Terminal) : Terminal :=
  match items with
  | O => t
  | S _ =>
      let n := Z.of_nat items in
      let selected := selectedSuggestionIndex t in
      if (0 <=? selected)%Z && (n <=? selected)%Z then t
      else
        let index :=
          match direction with
          | Up => if (selected <=? 0)%Z then (n - 1)%Z else (selected - 1)%Z
          | Down => if (n - 1 <=? selected)%Z then 0%Z else (selected + 1)%Z
          end in
        set_suggestions t (suggestions t) index (suggestionsShown t)
  end.

(** [applySuggestion()] *)
Definition applySuggestion (t : Terminal) : Terminal :=
  if (0 <=? selectedSuggestionIndex t)%Z then
    match suggestions t !! Z.to_nat (selectedSuggestionIndex t) with
    | Some s => hideSuggestions (set_commandInput t (command s))
    | None => t
    end
  else t.

(** [handleTabCompletion()] *)
Definition handleTabCompletion (t : Terminal) : Terminal :=
  let input := commandInput t in
  match getCommandSuggestions input t with
  | [] => t
  | [s] => hideSuggestions (set_commandInput t (command s))
  | _ => showSuggestions input t
  end.

(** [handleKeyDown(event)].  The suggestion box holds the items that
    [renderSuggestions] put there, and [this.suggestions] is not empty only
    while they are the suggestions themselves, so that under the guard of the
    arrow keys the items are as many as the suggestions. *)
Definition handleKeyDown (v : Variant) (key : Key) (t : Terminal) : Terminal :=
  let in_box :=
    Nat.ltb 0 (length (suggestions t)) && suggestionsShown t in
  match key with
  | Enter =>
      if (0 <=? selectedSuggestionIndex t)%Z then applySuggestion t
      else processCommand v t
  | Tab => handleTabCompletion t
  | ArrowUp =>
      if in_box then navigateSuggestions Up (length (suggestions t)) t
      else navigateHistory Up t
  | ArrowDown =>
      if in_box then navigateSuggestions Down (length (suggestions t)) t
      else navigateHistory Down t
  | Escape => hideSuggestions t
  | OtherKey => t
  end.

(** [interruptCommand()], bound to Ctrl+C. *)
Definition interruptCommand (t : Terminal) : Terminal :=
  hideSuggestions (set_commandInput (renderLine "^C" "output-warning" t) EmptyString).

(** The [change] listener of the distribution selector. *)
Definition selectDistro (selectedDistro : string) (t : Terminal) : Terminal :=
  if negb (String.eqb selectedDistro EmptyString)
     && negb (String.eqb selectedDistro (currentDistro t))
  then switchDistro (Some selectedDistro) t
  else t.

(** The distribution [init] settles on: the one of the URL, else the stored
    one, else the default; the default again when the registry does not know
    the one wanted. *)
Definition chooseDistro (dm : DistroManager) (distroParam savedDistro : option string)
    : string :=
  let wanted := or_else distroParam (or_else savedDistro (defaultDistro dm)) in
  if truthy (obj_get (distributions dm) wanted) then wanted else defaultDistro dm.

(** [displayMotd()] of the multi-distribution file, which adds the hints on
    the distribution commands. *)
Definition displayMotdMulti (t : Terminal) : Terminal :=
  match motd (config t) with
  | None => t
  | Some lines =>
      renderLines
        [ mkLine EmptyString EmptyString;
          mkLine "💡 Distribution Commands:" "output-success";
          mkLine "   • list-distros     - Show available distributions" EmptyString;
          mkLine "   • switch-distro    - Switch to different distribution" EmptyString;
          mkLine "   • Use dropdown in header for quick switching" EmptyString;
          mkLine EmptyString EmptyString ]
        (renderLines (map (fun line => mkLine line EmptyString) lines) t)
  end.

(** [init()] of the multi-distribution file when both fetches succeed:
    [fetchConfig] gives the configuration of the distribution chosen. *)
Definition initMulti (dm : DistroManager) (distroParam savedDistro : option string)
    (fetchConfig : string -> Config) (now : string) : Terminal :=
  let distro := chooseDistro dm distroParam savedDistro in
  let cfg := fetchConfig distro in
  displayMotdMulti
    (Multi.loadConfig cfg
       (mkTerminal cfg dm distro [] 0 "/home/user" 0 "dark" [] (-1) ∅ []
          EmptyString false now (Some distro) false)).

(** [updateUptime()]: the text shown for [elapsed] seconds. *)
Definition uptimeText (elapsed : nat) : string :=
  let hours := elapsed / 3600 in
  let minutes := (elapsed mod 3600) / 60 in
  let seconds := elapsed mod 60 in
  "Uptime: " +:+
  (if Nat.ltb 0 hours then Js.nat_to_string hours +:+ "h " else EmptyString) +:+
  (if Nat.ltb 0 minutes then Js.nat_to_string minutes +:+ "m " else EmptyString) +:+
  Js.nat_to_string seconds +:+ "s".

(** ** Notions used by the further properties *)

(** What no command touches: everything but the output pane, the current
    path, the theme and the pending switch of distribution. *)
Definition command_frame (t t' : Terminal) : Prop :=
  config t' = config t /\
  fileSystem t' = fileSystem t /\
  distroManager t' = distroManager t /\
  currentDistro t' = currentDistro t /\
  commandHistory t' = commandHistory t /\
  historyIndex t' = historyIndex t /\
  commandCount t' = commandCount t /\
  commandInput t' = commandInput t /\
  suggestions t' = suggestions t /\
  selectedSuggestionIndex t' = selectedSuggestionIndex t /\
  suggestionsShown t' = suggestionsShown t /\
  clock t' = clock t.

(** What no key press touches. *)
Definition same_world (t t' : Terminal) : Prop :=
  config t' = config t /\
  fileSystem t' = fileSystem t /\
  distroManager t' = distroManager t /\
  currentDistro t' = currentDistro t /\
  clock t' = clock t.

(** The entry [executeCommand] hands to [handleCommand]. *)
Definition dispatched (t : Terminal) (command fullCommand : string) : Js.value CmdObj :=
  let table := commands (config t) in
  if truthy (obj_get table fullCommand) then obj_get table fullCommand
  else obj_get table command.

(** The first word of a line. *)
Definition firstWord (line : string) : string :=
  match Js.split_ws (Js.trim line) with
  | command :: _ => command
  | [] => EmptyString
  end.

(** The action tag under which a submitted line runs, if any; a blank line
    runs nothing. *)
Definition lineAction (t : Terminal) (line : string) : option string :=
  if String.eqb (Js.trim line) EmptyString then None
  else get_action (dispatched t (firstWord line) (Js.trim line)).

(** The cursor of the history and the selection of the suggestions are in
    range, no history entry is empty, and at most five suggestions are
    held. *)
Definition session_ok (t : Terminal) : Prop :=
  (historyIndex t <= length (commandHistory t))%nat /\
  Forall (fun cmd => cmd <> EmptyString) (commandHistory t) /\
  (-1 <= selectedSuggestionIndex t < Z.of_nat (length (suggestions t)))%Z /\
  (length (suggestions t) <= 5)%nat.



Fixpoint no_slash (s : string) : bool :=
  match s with
  | EmptyString => true
  | String c s' => negb (Ascii.eqb c "/") && no_slash s'
  end.

(** A path segment: not empty and without slash. *)
Definition is_segment (s : string) : Prop :=
  s <> EmptyString /\ no_slash s = true.

(** The keys of an object after [k] was set on it. *)
Definition add_key (keys : list string) (k : string) : list string :=
  if bool_decide (k ∈ keys) then keys else keys ++ [k].

(** The names [enhanceConfig] of the multi-distribution file sees to, in the
    order it does. *)
Definition enhancedKeys : list string :=
  [ "switch-distro"; "list-distros"; "cd"; "mkdir"; "touch"; "rm"; "date";
    "history"; "theme"; "clear" ].

(** The path holds a directory. *)
Definition holds_directory (fs : FileSystem) (path : string) : Prop :=
  exists contents parent, fs !! path = Some (Directory contents parent).

Definition starts_with_slash (s : string) : bool :=
  match s with
  | EmptyString => false
  | String c _ => Ascii.eqb c "/"
  end.

(** The string has no two slashes in a row. *)
Fixpoint no_double_slash (s : string) : bool :=
  match s with
  | EmptyString => true
  | String c s' => negb (Ascii.eqb c "/" && starts_with_slash s') && no_double_slash s'
  end.

(** The path is one that [config.files] writes a file to. *)
Definition file_path (cfg : Config) (path : string) : Prop :=
  exists filename content,
    In (filename, content) (files cfg) /\
    path = "/home/" +:+ user (system cfg) +:+ "/" +:+ filename.

(** The terminal as [processCommand] has it when it calls [executeCommand]
    for [line]: the line echoed, recorded and counted. *)
Definition counted (v : Variant) (line : string) (t : Terminal) : Terminal :=
  set_commandCount
    (pushHistory (Js.trim line)
       (renderLine (promptText v t +:+ " " +:+ Js.trim line) "output-command"
          (set_commandInput t line)))
    (S (commandCount t)).

(** The action tags [handleCommand] has a case for. *)
Definition knownActions (v : Variant) : list string :=
  [ "clearScreen"; "showDate"; "showHistory"; "toggleTheme"; "changeDirectory";
    "makeDirectory"; "createFile"; "removeFile" ] ++
  match v with
  | MultiDistro => [ "switchDistro"; "listDistros" ]
  | SingleDistro => []
  end.

(** * Properties *)

(** ** Sanity checks of the primitives and of the scenario *)

Example replace_first_only : Js.replace "a//b//c" "//" "/" = "a/b//c".
Proof. reflexivity. Qed.

Example replace_dollar : Js.replace "bash: {cmd}: command not found" "{cmd}" "$$" = "bash: $: command not found".
Proof. reflexivity. Qed.

Example split_ws_ex : Js.split_ws "echo  a b" = ["echo"; "a"; "b"].
Proof. reflexivity. Qed.

Example nat_to_string_ex : Js.nat_to_string 120 = "120".
Proof. reflexivity. Qed.

Example trim_ex : Js.trim "  ls -l  " = "ls -l".
Proof. reflexivity. Qed.

Example endsWith_ex : Js.endsWith "sub/" "/" = true /\ Js.endsWith "a.txt" "/" = false.
Proof. split; reflexivity. Qed.

Example getParentPath_home : getParentPath "/home/user" = "/home".
Proof. reflexivity. Qed.

Example getParentPath_top : getParentPath "/home" = "/".
Proof. reflexivity. Qed.

Example scenario_fs :
  fileSystem (scenarioTerminal "user") !! "/home/user/sub" = Some (Directory [] "/home/user").
Proof. vm_compute. reflexivity. Qed.

Example scenario_ls :
  terminalOutput (submit MultiDistro "ls" (scenarioTerminal "user")) =
  [ mkLine "user@webterm:~$  ls" "output-command"; mkLine "📄 a.txt" EmptyString ].
Proof. vm_compute. reflexivity. Qed.

(** ** Objects: reading after writing *)

Section ObjectLemmas.
Context {A : Type}.
Implicit Types (o : JsObject A) (k : string) (v : A).

Lemma own_lookup_obj_set_eq k v o : own_lookup k (obj_set k v o) = Some v.
Proof.
  induction o as [|[k' v'] o IH]; simpl.
  - by rewrite String.eqb_refl.
  - destruct (String.eqb_spec k k') as [->|Hne]; simpl.
    + by rewrite String.eqb_refl.
    + destruct (String.eqb_spec k k'); [done | exact IH].
Qed.

Lemma own_lookup_obj_set_ne k k' v o :
  k ≠ k' → own_lookup k' (obj_set k v o) = own_lookup k' o.
Proof.
  intros Hne. induction o as [|[k0 v0] o IH]; simpl.
  - destruct (String.eqb_spec k' k); [congruence | done].
  - destruct (String.eqb_spec k k0) as [->|Hk]; simpl.
    + destruct (String.eqb_spec k' k0); [congruence | done].
    + by rewrite IH.
Qed.

Lemma own_lookup_obj_set k k' v o :
  own_lookup k' (obj_set k v o) =
  if String.eqb k' k then Some v else own_lookup k' o.
Proof.
  destruct (String.eqb_spec k' k) as [->|Hne].
  - apply own_lookup_obj_set_eq.
  - apply own_lookup_obj_set_ne; congruence.
Qed.

Lemma own_lookup_app k o1 o2 :
  own_lookup k (o1 ++ o2) =
  match own_lookup k o1 with
  | Some v => Some v
  | None => own_lookup k o2
  end.
Proof.
  induction o1 as [|[k' v'] o1 IH]; simpl; [done|].
  by destruct (String.eqb k k').
Qed.

Lemma own_lookup_None k o : k ∉ Object_keys o → own_lookup k o = None.
Proof.
  induction o as [|[k' v'] o IH]; simpl; [done|].
  intros Hnotin. apply not_elem_of_cons in Hnotin as [Hne Hrest].
  destruct (String.eqb_spec k k'); [done | by apply IH].
Qed.

(** With one pair per key, the enumeration order does not matter to a
    lookup. *)
Lemma own_lookup_rev k o :
  NoDup (Object_keys o) → own_lookup k (rev o) = own_lookup k o.
Proof.
  induction o as [|[k' v'] o IH]; simpl; [done|].
  intros Hnd. apply NoDup_cons in Hnd as [Hnotin Hnd].
  rewrite own_lookup_app, IH by done. simpl.
  destruct (String.eqb_spec k k') as [->|Hne].
  - by rewrite own_lookup_None.
  - by destruct (own_lookup k o).
Qed.

(** Setting the pairs of [l] one after the other: the last pair of a key
    decides. *)
Lemma own_lookup_fold_set k (l : list (string * A)) o :
  own_lookup k (fold_left (fun acc entry => obj_set (fst entry) (snd entry) acc) l o) =
  match own_lookup k (rev l) with
  | Some v => Some v
  | None => own_lookup k o
  end.
Proof.
  revert o. induction l as [|[k' v'] l IH]; intros o; simpl; [done|].
  rewrite IH, own_lookup_app. simpl.
  destruct (own_lookup k (rev l)); [done|].
  rewrite own_lookup_obj_set. by destruct (String.eqb k k').
Qed.
End ObjectLemmas.

(** A key that is no member of [Object.prototype] is truthy in a table
    exactly when it is an own property. *)
Lemma truthy_obj_get {A} (o : JsObject A) (k : string) :
  Js.is_prototype_name k = false →
  truthy (obj_get o k) = bool_decide (is_Some (own_lookup k o)).
Proof.
  intros Hk. unfold obj_get, Js.get.
  destruct (own_lookup k o); [done | by rewrite Hk].
Qed.

(** ** The merge of the core commands *)

Lemma own_lookup_mergeCore (core cmds : Table) (k : string) :
  Forall (fun entry => Js.is_prototype_name (fst entry) = false) core →
  own_lookup k (Multi.mergeCore core cmds) =
  match own_lookup k cmds with
  | Some d => Some d
  | None => own_lookup k core
  end.
Proof.
  unfold Multi.mergeCore. intros Hcore. revert cmds.
  induction Hcore as [|[cmd info] core Hcmd _ IH]; intros cmds; simpl.
  - by destruct (own_lookup k cmds).
  - simpl in Hcmd. rewrite IH. unfold obj_get, Js.get.
    destruct (own_lookup cmd cmds) as [d|] eqn:Hd; simpl.
    + destruct (own_lookup k cmds) eqn:Hk; [done|].
      destruct (String.eqb_spec k cmd) as [->|]; [congruence | done].
    + rewrite Hcmd. simpl. rewrite own_lookup_obj_set.
      destruct (String.eqb_spec k cmd) as [->|]; [by rewrite Hd | done].
Qed.

Lemma own_lookup_stamp (k s : string) (cmds : Table) (k' : string) :
  Js.is_prototype_name k = false →
  own_lookup k' (Multi.stamp k s cmds) =
  if String.eqb k' k then set_output s <$> own_lookup k cmds
  else own_lookup k' cmds.
Proof.
  intros Hk. unfold Multi.stamp, obj_get, Js.get.
  destruct (own_lookup k cmds) as [c|] eqn:Hc.
  - rewrite own_lookup_obj_set. by destruct (String.eqb k' k).
  - rewrite Hk. destruct (String.eqb_spec k' k) as [->|]; [by rewrite Hc | done].
Qed.

(** In [script.js] the merge is the spread [{...commands, ...additional}]: an
    additional command replaces the distro entry of the same name. *)
Lemma own_lookup_spread (usr : string) (D : Table) (k : string) :
  NoDup (Object_keys D) →
  own_lookup k (Single.spread D (Single.additionalCommands usr)) =
  match own_lookup k (Single.additionalCommands usr) with
  | Some c => Some c
  | None => own_lookup k D
  end.
Proof.
  intros HD. unfold Single.spread.
  rewrite own_lookup_fold_set, rev_app_distr, own_lookup_app.
  rewrite !own_lookup_rev; [|done|].
  - destruct (own_lookup k (Single.additionalCommands usr)); [done|].
    by destruct (own_lookup k D).
  - apply (bool_decide_unpack _). vm_compute. reflexivity.
Qed.

(** C1, as amended.  In the multi-distribution file the table that
    [enhanceConfig] builds from the distro table [D] maps [switch-distro] and
    [list-distros] to the two meta-commands whatever [D] holds; it maps every
    other key of [D] to [D]'s entry, with the [output] of [whoami] replaced by
    the user name and that of [pwd] by the current path; and it maps a key
    that [D] lacks to the entry of [coreCommands].  In [script.js] the
    additional commands win over the entries of [D]. *)
Theorem enhanceConfig_merge (t : Terminal) (k : string) :
  let D := commands (config t) in
  let usr := user (system (config t)) in
  NoDup (Object_keys D) →
  own_lookup k (commands (config (Multi.enhanceConfig t))) =
    (if String.eqb k "switch-distro" then Some Multi.switch_distro_cmd
     else if String.eqb k "list-distros" then Some Multi.list_distros_cmd
     else match own_lookup k D with
          | Some d =>
              Some (if String.eqb k "whoami" then set_output usr d
                    else if String.eqb k "pwd" then set_output (currentPath t) d
                    else d)
          | None => own_lookup k Multi.coreCommands
          end)
  ∧ own_lookup k (commands (config (Single.enhanceConfig t))) =
    match own_lookup k (Single.additionalCommands usr) with
    | Some c => Some c
    | None => own_lookup k D
    end.
Proof.
  intros D usr HD. split; [|by apply own_lookup_spread].
  change (commands (config (Multi.enhanceConfig t)))
    with (Multi.enhanceCommands usr (currentPath t) D).
  unfold Multi.enhanceCommands.
  rewrite !own_lookup_stamp by reflexivity.
  rewrite !own_lookup_mergeCore by (repeat constructor).
  rewrite !own_lookup_obj_set. simpl.
  destruct (String.eqb_spec k "pwd") as [->|Hpwd]; simpl.
  { by destruct (own_lookup "pwd" D). }
  destruct (String.eqb_spec k "whoami") as [->|Hwho]; simpl.
  { by destruct (own_lookup "whoami" D). }
  destruct (String.eqb_spec k "list-distros") as [->|Hlist]; [done|].
  destruct (String.eqb k "switch-distro"); [done|].
  by destruct (own_lookup k D).
Qed.

(** The merge on a table that brings its own [cd]: the multi-distribution
    file keeps it, [script.js] replaces it. *)
Lemma enhanceConfig_merge_witness :
  own_lookup "cd" (commands (config (Multi.enhanceConfig customTerminal))) =
    Some (mkCmdObj (Some "Go somewhere") (Some (OutStr "cd: not supported")) None)
  ∧ own_lookup "cd" (commands (config (Single.enhanceConfig customTerminal))) =
    Some (action_cmd "Change the current directory" "changeDirectory").
Proof.
  apply (enhanceConfig_merge customTerminal "cd").
  apply (bool_decide_unpack _). vm_compute. reflexivity.
Defined.

(** C1, as stated, fails: the built table stamps the [output] of the distro's
    [whoami], and holds [switch-distro], which neither the distro table nor
    the core defaults have. *)
Lemma enhanceConfig_not_right_biased :
  let built := commands (config (Multi.enhanceConfig customTerminal)) in
  (own_lookup "whoami" customTable =
     Some (mkCmdObj (Some "Print the user") (Some (OutStr "root")) None)
   ∧ own_lookup "whoami" built =
     Some (mkCmdObj (Some "Print the user") (Some (OutStr "alice")) None))
  ∧ (own_lookup "switch-distro" customTable = None
     ∧ own_lookup "switch-distro" Multi.coreCommands = None
     ∧ own_lookup "switch-distro" built = Some Multi.switch_distro_cmd)
  ∧ ¬ right_biased (Multi.enhanceCommands "alice" "/home/alice") Multi.coreCommands.
Proof.
  repeat split; try reflexivity.
  intros Hclaim. specialize (Hclaim customTable "whoami"). vm_compute in Hclaim.
  discriminate Hclaim.
Qed.

(** In [script.js] the claim fails the other way round: the distro's [cd] is
    replaced by the additional one. *)
Lemma spread_not_right_biased :
  own_lookup "cd" (Single.spread customTable (Single.additionalCommands "alice")) =
    Some (action_cmd "Change the current directory" "changeDirectory")
  ∧ ¬ right_biased (fun D => Single.spread D (Single.additionalCommands "alice"))
        (Single.additionalCommands "alice").
Proof.
  split; [reflexivity|].
  intros Hclaim. specialize (Hclaim customTable "cd"). vm_compute in Hclaim.
  discriminate Hclaim.
Qed.

(** ** The cosmetic file operations *)

Lemma renderLine_emits_only (txt cls : string) (t : Terminal) :
  emits_only t (renderLine txt cls t) (mkLine txt cls).
Proof. by repeat split. Qed.

(** C9.  [mkdir], [touch] and [rm] never change the filesystem or the current
    path, whatever their argument: given a name they emit one line that
    reports the operation as done, and without one they emit one
    missing-operand error.  The three core descriptors dispatch to them. *)
Theorem mkdir_touch_rm_cosmetic (v : Variant) (t : Terminal) (name : option string)
    (args : list string) (cmd : string) :
  emits_only t (makeDirectory name t)
    (if falsy name then mkLine "mkdir: missing operand" "output-error"
     else mkLine ("📁 Created directory: " +:+ interpolate name) "output-success")
  ∧ emits_only t (createFile name t)
    (if falsy name then mkLine "touch: missing operand" "output-error"
     else mkLine ("📄 Created file: " +:+ interpolate name) "output-success")
  ∧ emits_only t (removeFile name t)
    (if falsy name then mkLine "rm: missing operand" "output-error"
     else mkLine ("🗑️ Removed: " +:+ interpolate name) "output-warning")
  ∧ handleCommand v (Js.Own (action_cmd "Create a new directory" "makeDirectory")) args cmd t
    = makeDirectory (head args) t
  ∧ handleCommand v (Js.Own (action_cmd "Create a new file" "createFile")) args cmd t
    = createFile (head args) t
  ∧ handleCommand v (Js.Own (action_cmd "Remove files or directories" "removeFile")) args cmd t
    = removeFile (head args) t.
Proof.
  unfold makeDirectory, createFile, removeFile.
  repeat split; try (destruct (falsy name); reflexivity); reflexivity.
Qed.

(** ** History recall *)

Example historyTerminal_history :
  commandHistory historyTerminal = ["ls"; "pwd"] ∧ historyIndex historyTerminal = 2.
Proof. vm_compute. by split. Qed.

(** C7, as amended.  From the history [ls], [pwd] with the cursor at its
    length, history-up shows [pwd], a second history-up shows [ls], and the
    history-down that follows shows [pwd] again, the cursor standing at 1. *)
Theorem navigateHistory_up_up_down (t : Terminal) :
  commandHistory t = ["ls"; "pwd"] →
  historyIndex t = 2 →
  let t1 := navigateHistory Up t in
  let t2 := navigateHistory Up t1 in
  let t3 := navigateHistory Down t2 in
  commandInput t1 = "pwd" ∧ commandInput t2 = "ls" ∧
  commandInput t3 = "pwd" ∧ historyIndex t3 = 1.
Proof.
  intros Hh Hi. unfold navigateHistory. simpl. rewrite Hh, Hi. simpl.
  by repeat split.
Qed.

(** The recall on the terminal that ran [ls] and then [pwd]. *)
Lemma navigateHistory_up_up_down_witness :
  let t1 := navigateHistory Up historyTerminal in
  let t2 := navigateHistory Up t1 in
  let t3 := navigateHistory Down t2 in
  commandInput t1 = "pwd" ∧ commandInput t2 = "ls" ∧
  commandInput t3 = "pwd" ∧ historyIndex t3 = 1.
Proof.
  apply (navigateHistory_up_up_down historyTerminal); vm_compute; reflexivity.
Defined.

(** C7, as stated, fails: after up, up, down the input box holds [pwd], not
    [ls]. *)
Lemma navigateHistory_not_ls :
  let t3 := navigateHistory Down (navigateHistory Up (navigateHistory Up historyTerminal)) in
  commandHistory historyTerminal = ["ls"; "pwd"]
  ∧ historyIndex historyTerminal = length (commandHistory historyTerminal)
  ∧ commandInput t3 = "pwd"
  ∧ commandInput t3 ≠ "ls".
Proof. vm_compute. repeat split. discriminate. Qed.

(** ** Suggestions *)









(** ** Path resolution *)

Lemma prefix_drop_str (pat s : string) :
  String.prefix pat s = true → s = pat +:+ Js.drop_str (String.length pat) s.
Proof.
  revert s. induction pat as [|a pat IH]; intros [|b s]; simpl; try done.
  destruct (ascii_dec a b) as [->|]; [|done].
  intros Hp.
  change (String b s = String b (pat +:+ Js.drop_str (String.length pat) s)).
  f_equal. by apply IH.
Qed.

Lemma find_first_unfold (pat s : string) :
  Js.find_first pat s =
  if String.prefix pat s then Some (EmptyString, Js.drop_str (String.length pat) s)
  else match s with
       | EmptyString => None
       | String c s' =>
           match Js.find_first pat s' with
           | Some (before, after) => Some (String c before, after)
           | None => None
           end
       end.
Proof. by destruct s. Qed.

(** [find_first] splits the string around an occurrence of the pattern. *)
Lemma find_first_Some (pat s before after : string) :
  Js.find_first pat s = Some (before, after) → s = before +:+ pat +:+ after.
Proof.
  revert before. induction s as [|c s IH]; intros before;
    rewrite find_first_unfold;
    (destruct (String.prefix pat _) eqn:Hp;
     [intros [= <- <-]; by apply prefix_drop_str|]); [done|].
  destruct (Js.find_first pat s) as [[b a]|]; [|done].
  intros [= <- <-].
  change (String c s = String c (b +:+ pat +:+ a)).
  f_equal. by apply IH.
Qed.

(** Replacing by a text without dollar sign puts that very text. *)
Lemma replace_slash (s : string) :
  Js.replace s "//" "/" =
  match Js.find_first "//" s with
  | Some (before, after) => before +:+ "/" +:+ after
  | None => s
  end.
Proof. unfold Js.replace. by destruct (Js.find_first "//" s) as [[b a]|]. Qed.

(** C5, as amended.  [resolvePath] returns the current path for a missing or
    empty input and for [.]; for [..] it returns the parent field of the node
    at the current path when that field is not empty, and the current path
    when it is empty or when there is no node; an input that begins with [/]
    is returned as it is; every other input gives [cwd/input] with its first
    doubled separator, if any, replaced by a single one. *)
Theorem resolvePath_cases (t : Terminal) :
  let cwd := currentPath t in
  resolvePath None t = cwd
  ∧ resolvePath (Some EmptyString) t = cwd
  ∧ resolvePath (Some ".") t = cwd
  ∧ resolvePath (Some "..") t =
      match fileSystem t !! cwd with
      | Some node => if String.eqb (node_parent node) EmptyString then cwd else node_parent node
      | None => cwd
      end
  ∧ (∀ rest, resolvePath (Some ("/" +:+ rest)) t = "/" +:+ rest)
  ∧ (∀ p, p ≠ EmptyString → Js.startsWith p "/" = false → p ≠ ".." → p ≠ "." →
       match Js.find_first "//" (cwd +:+ "/" +:+ p) with
       | Some (before, after) =>
           cwd +:+ "/" +:+ p = before +:+ "//" +:+ after
           ∧ resolvePath (Some p) t = before +:+ "/" +:+ after
       | None => resolvePath (Some p) t = cwd +:+ "/" +:+ p
       end).
Proof.
  intros cwd. repeat split; try reflexivity.
  - unfold resolvePath, fs_get, Js.get. simpl. fold cwd.
    destruct (fileSystem t !! cwd) as [node|]; simpl.
    + by destruct (String.eqb (node_parent node) EmptyString).
    + by destruct (Js.is_prototype_name cwd).
  - intros rest. by destruct rest.
  - intros p Hne Hslash Hdd Hd. unfold resolvePath. fold cwd.
    apply String.eqb_neq in Hne, Hdd, Hd. rewrite Hne, Hslash, Hdd, Hd.
    rewrite replace_slash.
    destruct (Js.find_first "//" (cwd +:+ "/" +:+ p)) as [[b a]|] eqn:Hf; [|done].
    split; [by apply find_first_Some | done].
Qed.

(** C5, as stated, fails: only the first doubled separator is collapsed, and
    for [..] an empty parent field is not returned. *)
Lemma resolvePath_not_as_stated :
  (currentPath (scenarioTerminal "user") = "/home/user"
   ∧ resolvePath (Some "a//b//c") (scenarioTerminal "user") = "/home/user/a/b//c")
  ∧ (currentPath rootlessTerminal = "/sub"
     ∧ fileSystem rootlessTerminal !! "/sub" = Some (Directory [] EmptyString)
     ∧ resolvePath (Some "..") rootlessTerminal = "/sub").
Proof. by vm_compute. Qed.

(** ** Listing a directory *)

(** C4, evaluated on the scenario.  The directory [sub] exists, but its name
    is not among the children of the home directory, and [ls] prints the
    file alone. *)
Theorem ls_omits_subdirectory :
  let t := scenarioTerminal "user" in
  currentPath t = "/home/user"
  ∧ fileSystem t !! "/home/user" = Some (Directory ["a.txt"] "/home")
  ∧ fileSystem t !! "/home/user/sub" = Some (Directory [] "/home/user")
  ∧ fileSystem t !! "/home/user/a.txt" = Some (File "hello" "/home/user")
  ∧ terminalOutput (submit MultiDistro "ls" t) =
    terminalOutput t ++
    [ mkLine "user@webterm:~$  ls" "output-command";
      mkLine "📄 a.txt" EmptyString ].
Proof. by vm_compute. Qed.

(** Had the child list named [sub], [ls] would mark it as a directory: the
    hard-wired filesystem of [script.js] lists [projects] that way. *)
Example ls_marks_listed_directory :
  terminalOutput
    (handleLs [] (bootSingle (scenarioConfig "user") "Mon Nov 02 2026")) =
  [ mkLine "📄 README.md  📄 notes.txt  📁 projects/" EmptyString ].
Proof. by vm_compute. Qed.

(** ** Changing directory *)

(** C8, evaluated for a user that is not called [user].  [cd] without
    argument and [cd ~] set the current path to [/home/user], which is not
    the home directory the configuration gives and is no node of the
    filesystem. *)
Theorem cd_home_is_hard_wired :
  let t := scenarioTerminal "archuser" in
  currentPath t = "/home/archuser"
  ∧ currentPath (submit MultiDistro "cd sub" t) = "/home/archuser/sub"
  ∧ currentPath (submit MultiDistro "cd" (submit MultiDistro "cd sub" t)) = "/home/user"
  ∧ currentPath (submit MultiDistro "cd ~" (submit MultiDistro "cd sub" t)) = "/home/user"
  ∧ fileSystem t !! "/home/user" = None.
Proof. by vm_compute. Qed.

(** For every other argument [cd] moves exactly when the resolved path holds
    a directory; otherwise it emits one error line and stays. *)
Lemma changeDirectory_other (t : Terminal) (p : string) :
  p ≠ EmptyString → p ≠ "~" →
  let target := resolvePath (Some p) t in
  let t' := changeDirectory (Some p) t in
  fileSystem t' = fileSystem t ∧
  match fileSystem t !! target with
  | Some (Directory _ _) =>
      currentPath t' = target ∧ terminalOutput t' = terminalOutput t
  | Some (File _ _) =>
      currentPath t' = currentPath t
      ∧ terminalOutput t' =
        terminalOutput t ++ [mkLine ("cd: " +:+ p +:+ ": Not a directory") "output-error"]
  | None =>
      currentPath t' = currentPath t
      ∧ ∃ msg, terminalOutput t' = terminalOutput t ++ [mkLine msg "output-error"]
  end.
Proof.
  intros Hne Htilde target t'. subst t'. unfold changeDirectory.
  apply String.eqb_neq in Hne, Htilde.
  replace (falsy (Some p) || String.eqb (interpolate (Some p)) "~") with false
    by (simpl; by rewrite Hne, Htilde).
  fold target. clearbody target. unfold fs_get, Js.get.
  destruct (fileSystem t !! target) as [[c par|c par]|].
  - by repeat split.
  - by repeat split.
  - destruct (Js.is_prototype_name target); repeat split; eauto.
Qed.

(** [cd sub] in the home directory of the scenario. *)
Lemma changeDirectory_other_witness :
  let t := scenarioTerminal "user" in
  let target := resolvePath (Some "sub") t in
  let t' := changeDirectory (Some "sub") t in
  fileSystem t' = fileSystem t ∧
  match fileSystem t !! target with
  | Some (Directory _ _) =>
      currentPath t' = target ∧ terminalOutput t' = terminalOutput t
  | Some (File _ _) =>
      currentPath t' = currentPath t
      ∧ terminalOutput t' =
        terminalOutput t ++ [mkLine ("cd: " +:+ "sub" +:+ ": Not a directory") "output-error"]
  | None =>
      currentPath t' = currentPath t
      ∧ ∃ msg, terminalOutput t' = terminalOutput t ++ [mkLine msg "output-error"]
  end.
Proof.
  apply (changeDirectory_other (scenarioTerminal "user") "sub"); vm_compute; discriminate.
Defined.

(** ** Command dispatch *)

(** A replacement text without dollar sign is inserted as it is. *)
Lemma getSubstitution_plain (matched before after repl : string) :
  has_dollar repl = false →
  Js.getSubstitution matched before after repl = repl.
Proof.
  induction repl as [|c r IH]; [done|].
  intros Hd. simpl in Hd. apply orb_false_iff in Hd as [Hc Hr].
  specialize (IH Hr).
  destruct c as [[] [] [] [] [] [] [] []]; try discriminate Hc; simpl; by rewrite IH.
Qed.

Lemma replace_plain (template cmd : string) :
  has_dollar cmd = false →
  Js.replace template "{cmd}" cmd = substitute_cmd template cmd.
Proof.
  intros Hd. unfold Js.replace, substitute_cmd.
  destruct (Js.find_first "{cmd}" template) as [[b a]|]; [|done].
  by rewrite getSubstitution_plain.
Qed.



(** The order of the lookups in [executeCommand]: the whole line first, the
    first word next, the not-found message last.  A name that is no own
    property of the table but a member of [Object.prototype] is found all the
    same, and a dollar sign in the command is read as a replacement pattern;
    the message is the template with [{cmd}] replaced for the other names. *)
Theorem executeCommand_dispatch (v : Variant) (t : Terminal) (command : string)
    (args : list string) (fullCommand : string) :
  let table := commands (config t) in
  match own_lookup fullCommand table with
  | Some entry =>
      executeCommand v command args fullCommand t =
      handleCommand v (Js.Own entry) args fullCommand t
  | None =>
      Js.is_prototype_name fullCommand = false →
      match own_lookup command table with
      | Some entry =>
          executeCommand v command args fullCommand t =
          handleCommand v (Js.Own entry) args command t
      | None =>
          Js.is_prototype_name command = false →
          has_dollar command = false →
          executeCommand v command args fullCommand t =
          renderLine (substitute_cmd (commandNotFound (system (config t))) command)
            "output-error" t
      end
  end.
Proof.
  intros table. unfold executeCommand, obj_get, Js.get. fold table.
  destruct (own_lookup fullCommand table) as [entry|]; [done|].
  intros ->. simpl.
  destruct (own_lookup command table) as [entry|]; [done|].
  intros -> Hd. simpl. by rewrite replace_plain.
Qed.

Example not_found_foo :
  terminalOutput (submit MultiDistro "foo" (scenarioTerminal "user")) =
  [ mkLine "user@webterm:~$  foo" "output-command";
    mkLine "bash: foo: command not found" "output-error" ].
Proof. by vm_compute. Qed.

(** C2, evaluated where it fails.  The table of the scenario has no entry for
    [$&], [$$] or [toString], and the template is the one of bash; yet the
    message for [$&] keeps the placeholder, the one for [$$] names a single
    dollar sign, and [toString] gets no message at all. *)
Theorem not_found_message_misread :
  let t := scenarioTerminal "user" in
  let echo line := mkLine ("user@webterm:~$  " +:+ line) "output-command" in
  commandNotFound (system (config t)) = "bash: {cmd}: command not found"
  ∧ own_lookup "$&" (commands (config t)) = None
  ∧ own_lookup "$$" (commands (config t)) = None
  ∧ own_lookup "toString" (commands (config t)) = None
  ∧ terminalOutput (submit MultiDistro "$&" t) =
    terminalOutput t ++
    [ echo "$&"; mkLine "bash: {cmd}: command not found" "output-error" ]
  ∧ terminalOutput (submit MultiDistro "$$" t) =
    terminalOutput t ++
    [ echo "$$"; mkLine "bash: $: command not found" "output-error" ]
  ∧ terminalOutput (submit MultiDistro "toString" t) =
    terminalOutput t ++ [ echo "toString" ].
Proof. by vm_compute. Qed.





Example echo_without_entry :
  terminalOutput (submit MultiDistro "echo hi" (scenarioTerminal "user")) =
  [ mkLine "user@webterm:~$  echo hi" "output-command";
    mkLine "bash: echo: command not found" "output-error" ].
Proof. by vm_compute. Qed.

(** With an entry under its name, even an empty one, the built-in runs. *)
Example pwd_with_entry :
  terminalOutput (submit MultiDistro "pwd" (scenarioTerminal "user")) =
  [ mkLine "user@webterm:~$  pwd" "output-command";
    mkLine "/home/user" EmptyString ].
Proof. by vm_compute. Qed.

(** ** The shape of the built filesystem *)

Section FileSystemShape.
Variable usr : string.

(** A node keeps its shape when paths and files are added. *)
Lemma node_shape_mono (fl fl' : JsObject string) (fs fs' : FileSystem) p n :
  (∀ q, is_Some (fs !! q) → is_Some (fs' !! q)) →
  (∀ e, In e fl → In e fl') →
  node_shape usr fl fs p n → node_shape usr fl' fs' p n.
Proof.
  intros Hfs Hfl. destruct n as [contents parent|content parent]; simpl.
  - intros [Hdecl|(Hempty & Hpar & Hname)]; [by left|].
    right. split; [done|]. split; [by apply Hfs | done].
  - intros [Hpar (filename & Hin & Hp)]. split; [done|]. eauto.
Qed.

Lemma all_shaped_insert (fl : JsObject string) (fs : FileSystem) k n :
  all_shaped usr fl fs →
  node_shape usr fl (<[k := n]> fs) k n →
  all_shaped usr fl (<[k := n]> fs).
Proof.
  intros Hall Hnew p n' Hlook.
  destruct (decide (k = p)) as [->|Hne].
  - rewrite lookup_insert_eq in Hlook. by injection Hlook as <-.
  - rewrite lookup_insert_ne in Hlook by done.
    eapply node_shape_mono; [| |by apply Hall]; [|done].
    intros q Hq. apply lookup_insert_is_Some.
    destruct (decide (k = q)); [by left | by right].
Qed.

(** The inner loop of [setupDirectory]: the empty directories under
    [fullPath]. *)
Lemma all_shaped_subdirectories (fullPath : string) (dirs : list string)
    (fs : FileSystem) :
  all_shaped usr [] fs → is_Some (fs !! fullPath) →
  let fs' :=
    fold_left
      (fun fs' dir => <[ fullPath +:+ "/" +:+ Js.replace dir "/" EmptyString
                         := Directory [] fullPath ]> fs')
      dirs fs in
  all_shaped usr [] fs' ∧ is_Some (fs' !! fullPath).
Proof.
  revert fs. induction dirs as [|dir dirs IH]; intros fs Hall Hfull; simpl; [done|].
  apply IH.
  - apply all_shaped_insert; [done|]. right. split; [done|]. split; [|eauto].
    apply lookup_insert_is_Some.
    destruct (decide (fullPath +:+ "/" +:+ Js.replace dir "/" EmptyString = fullPath));
      [by left | by right].
  - apply lookup_insert_is_Some.
    destruct (decide (fullPath +:+ "/" +:+ Js.replace dir "/" EmptyString = fullPath));
      [by left | by right].
Qed.

Lemma all_shaped_setupDirectory (fs : FileSystem) (entry : string * list string) :
  all_shaped usr [] fs → all_shaped usr [] (setupDirectory usr fs entry).
Proof.
  intros Hall. destruct entry as [path contents]. unfold setupDirectory.
  apply all_shaped_subdirectories.
  - apply all_shaped_insert; [done|]. by left.
  - rewrite lookup_insert_eq. eauto.
Qed.

Lemma all_shaped_directories (entries : JsObject (list string)) (fs : FileSystem) :
  all_shaped usr [] fs → all_shaped usr [] (fold_left (setupDirectory usr) entries fs).
Proof.
  revert fs. induction entries as [|entry entries IH]; intros fs Hall; simpl; [done|].
  by apply IH, all_shaped_setupDirectory.
Qed.

End FileSystemShape.




(** * Further properties *)

(** ** What a command leaves alone *)

Lemma frame_refl (t : Terminal) : command_frame t t.
Proof. by repeat split. Qed.

Lemma frame_renderLine (txt cls : string) (t0 t : Terminal) :
  command_frame t0 t → command_frame t0 (renderLine txt cls t).
Proof. intros H. exact H. Qed.

Lemma frame_renderLines (ls : list Line) (t0 t : Terminal) :
  command_frame t0 t → command_frame t0 (renderLines ls t).
Proof.
  unfold renderLines. revert t. induction ls as [|l ls IH]; intros t H; simpl; [done|].
  by apply IH, frame_renderLine.
Qed.

Lemma frame_set_currentPath (p : string) (t0 t : Terminal) :
  command_frame t0 t → command_frame t0 (set_currentPath t p).
Proof. intros H. exact H. Qed.

Lemma frame_set_currentTheme (th : string) (t0 t : Terminal) :
  command_frame t0 t → command_frame t0 (set_currentTheme t th).
Proof. intros H. exact H. Qed.

Lemma frame_set_terminalOutput (out : list Line) (t0 t : Terminal) :
  command_frame t0 t → command_frame t0 (set_terminalOutput t out).
Proof. intros H. exact H. Qed.

Lemma frame_set_reload (d : string) (t0 t : Terminal) :
  command_frame t0 t → command_frame t0 (set_reload t d).
Proof. intros H. exact H. Qed.

Ltac frame :=
  repeat first
    [ assumption
    | apply frame_refl
    | apply frame_renderLine
    | apply frame_renderLines
    | apply frame_set_currentPath
    | apply frame_set_currentTheme
    | apply frame_set_terminalOutput
    | apply frame_set_reload ].

Lemma frame_builtinCommand (cmdObj : Js.value CmdObj) (args : list string)
    (command : string) (t : Terminal) :
  command_frame t (builtinCommand cmdObj args command t).
Proof.
  unfold builtinCommand, staticOutput, showHelp, handleCat, handleLs.
  repeat case_match; frame.
Qed.

Lemma frame_handleCommand (v : Variant) (cmdObj : Js.value CmdObj)
    (args : list string) (command : string) (t : Terminal) :
  command_frame t (handleCommand v cmdObj args command t).
Proof.
  unfold handleCommand.
  repeat case_match; try apply frame_builtinCommand;
    unfold clearScreen, showHistory, toggleTheme, changeDirectory, makeDirectory,
      createFile, removeFile, switchDistro, listDistros;
    repeat case_match; frame.
Qed.

Lemma frame_executeCommand (v : Variant) (command : string) (args : list string)
    (fullCommand : string) (t : Terminal) :
  command_frame t (executeCommand v command args fullCommand t).
Proof.
  unfold executeCommand. repeat case_match; try apply frame_handleCommand. frame.
Qed.

(** ** Submitting a line *)

Lemma pushHistory_history (fullCommand : string) (t : Terminal) :
  commandHistory (pushHistory fullCommand t) =
  if bool_decide (last (commandHistory t) = Some fullCommand) then commandHistory t
  else commandHistory t ++ [fullCommand].
Proof.
  unfold pushHistory. simpl. destruct (last (commandHistory t)) as [l|] eqn:Hl.
  - destruct (String.eqb_spec l fullCommand) as [->|Hne].
    + by rewrite bool_decide_eq_true_2.
    + rewrite bool_decide_eq_false_2; [done | congruence].
  - by rewrite bool_decide_eq_false_2.
Qed.


(** What [processCommand] does around the command it runs, for an input that
    is not blank: the state [te] is the one [executeCommand] returns. *)
Lemma processCommand_nonblank (v : Variant) (t : Terminal) :
  Js.trim (commandInput t) ≠ EmptyString →
  ∃ te,
    processCommand v t = hideSuggestions (set_commandInput te EmptyString)
    ∧ command_frame
        (set_commandCount
           (pushHistory (Js.trim (commandInput t))
              (renderLine (promptText v t +:+ " " +:+ Js.trim (commandInput t))
                 "output-command" t))
           (S (commandCount t)))
        te.
Proof.
  intros Hne%String.eqb_neq. unfold processCommand. rewrite Hne.
  destruct (Js.split_ws (Js.trim (commandInput t))) as [|command args].
  - eexists. split; [reflexivity | apply frame_refl].
  - eexists. split; [reflexivity | apply frame_executeCommand].
Qed.








(** ** The words of a line *)






Lemma split_ws_from_not_nil (s cur : string) (in_ws : bool) :
  Js.split_ws_from cur in_ws s ≠ [].
Proof.
  revert cur in_ws. induction s as [|c s IH]; intros cur in_ws; simpl; [done|].
  destruct (Js.is_space c); [destruct in_ws|]; try done; apply IH.
Qed.



(** ** The keyboard *)

Lemma getCommandSuggestions_length (input : string) (t : Terminal) :
  (length (getCommandSuggestions input t) ≤ 5)%nat.
Proof. unfold getCommandSuggestions. rewrite length_map, length_take. lia. Qed.

Lemma session_ok_hidden (t' : Terminal) :
  (historyIndex t' ≤ length (commandHistory t'))%nat →
  Forall (fun cmd => cmd ≠ EmptyString) (commandHistory t') →
  suggestions t' = [] → selectedSuggestionIndex t' = (-1)%Z →
  session_ok t'.
Proof.
  intros Hi Hh Hs Hsel. unfold session_ok. rewrite Hs, Hsel. simpl.
  repeat split; try done; lia.
Qed.

Lemma session_ok_processCommand (v : Variant) (t : Terminal) :
  session_ok t → session_ok (processCommand v t).
Proof.
  intros (Hi & Hh & _ & _).
  destruct (decide (Js.trim (commandInput t) = EmptyString)) as [Hblank|Hne].
  - unfold processCommand. rewrite Hblank. simpl.
    by apply session_ok_hidden.
  - destruct (processCommand_nonblank v t Hne) as (te & -> & Hframe).
    destruct Hframe as (_ & _ & _ & _ & Hhist & Hidx & _).
    set (t1 := renderLine (promptText v t +:+ " " +:+ Js.trim (commandInput t))
                 "output-command" t) in *.
    assert (commandHistory te = commandHistory (pushHistory (Js.trim (commandInput t)) t1))
      as Hhist' by exact Hhist.
    assert (historyIndex te = length (commandHistory te)) as Hidx'.
    { rewrite Hidx, Hhist'. reflexivity. }
    apply session_ok_hidden; [| |done..].
    + change (historyIndex te ≤ length (commandHistory te))%nat. lia.
    + change (Forall (fun cmd => cmd ≠ EmptyString) (commandHistory te)).
      rewrite Hhist', pushHistory_history.
      change (commandHistory t1) with (commandHistory t).
      case_bool_decide; [done|].
      apply Forall_app. split; [done|]. by constructor.
Qed.

Lemma session_ok_showSuggestions (input : string) (t : Terminal) :
  session_ok t → session_ok (showSuggestions input t).
Proof.
  intros (Hi & Hh & _ & _). unfold showSuggestions.
  pose proof (getCommandSuggestions_length input t) as Hlen.
  destruct (getCommandSuggestions input t) as [|s rest].
  - by apply session_ok_hidden.
  - unfold session_ok. simpl in *. repeat split; try done; lia.
Qed.

Lemma session_ok_navigateHistory (direction : Direction) (t : Terminal) :
  session_ok t → session_ok (navigateHistory direction t).
Proof.
  intros Hok. pose proof Hok as (Hi & Hh & Hsel & Hlen). unfold navigateHistory.
  destruct (commandHistory t) as [|cmd rest] eqn:Hhist; [done|].
  unfold session_ok. simpl. split; [|done].
  destruct direction.
  - destruct (Nat.ltb_spec 0 (historyIndex t)); simpl in *; lia.
  - destruct (Nat.ltb_spec (historyIndex t) (S (length rest))); simpl in *; lia.
Qed.

Lemma session_ok_navigateSuggestions (direction : Direction) (t : Terminal) :
  session_ok t →
  session_ok (navigateSuggestions direction (length (suggestions t)) t).
Proof.
  intros Hok. pose proof Hok as (Hi & Hh & Hsel & Hlen). unfold navigateSuggestions.
  destruct (length (suggestions t)) as [|n] eqn:Hn; [done|].
  case_match; [done|].
  unfold session_ok. simpl. rewrite Hn. repeat split; try done; try lia.
  all: destruct direction;
    [ destruct (Z.leb_spec (selectedSuggestionIndex t) 0)
    | destruct (Z.leb_spec (Z.of_nat (S n) - 1) (selectedSuggestionIndex t)) ]; lia.
Qed.

(** Whatever key is pressed, the history cursor stays within the history,
    the selection stays within the suggestions, no empty line enters the
    history and at most five suggestions are held. *)
Theorem handleKeyDown_session_ok (v : Variant) (key : Key) (t : Terminal) :
  session_ok t → session_ok (handleKeyDown v key t).
Proof.
  intros Hok. pose proof Hok as (Hi & Hh & Hsel & Hlen).
  destruct key; simpl.
  - case_match; [|by apply session_ok_processCommand].
    unfold applySuggestion. repeat case_match; try done.
    by apply session_ok_hidden.
  - unfold handleTabCompletion.
    pose proof (session_ok_showSuggestions (commandInput t) t Hok) as Hshow.
    destruct (getCommandSuggestions (commandInput t) t) as [|s [|s' rest]] eqn:Hs;
      [done | by apply session_ok_hidden | done].
  - case_match; [by apply session_ok_navigateSuggestions
                | by apply session_ok_navigateHistory].
  - case_match; [by apply session_ok_navigateSuggestions
                | by apply session_ok_navigateHistory].
  - by apply session_ok_hidden.
  - done.
Qed.

Example scenario_session_ok : session_ok (scenarioTerminal "user").
Proof.
  unfold session_ok. vm_compute. repeat split; try lia; try done;
    try (intros; discriminate); try constructor.
Qed.

(** Enter on the terminal of the scenario with [ls] typed. *)
Lemma handleKeyDown_session_ok_witness :
  session_ok
    (handleKeyDown MultiDistro Enter (set_commandInput (scenarioTerminal "user") "ls")).
Proof.
  apply (handleKeyDown_session_ok MultiDistro Enter
           (set_commandInput (scenarioTerminal "user") "ls")).
  exact scenario_session_ok.
Defined.

Lemma same_world_processCommand (v : Variant) (t : Terminal) :
  same_world t (processCommand v t).
Proof.
  destruct (decide (Js.trim (commandInput t) = EmptyString)) as [Hblank|Hne].
  - unfold processCommand. rewrite Hblank. by repeat split.
  - destruct (processCommand_nonblank v t Hne) as (te & -> & Hframe).
    destruct Hframe as (Hc & Hf & Hd & Hcd & _ & _ & _ & _ & _ & _ & _ & Hclock).
    by repeat split.
Qed.

(** No key press and no command changes the filesystem, the configuration
    with its command table, or the registry of distributions: they are what
    [loadConfig] made them until the page is loaded again. *)
Theorem handleKeyDown_same_world (v : Variant) (key : Key) (t : Terminal) :
  same_world t (handleKeyDown v key t)
  ∧ ∀ line, same_world t (submit v line t).
Proof.
  split.
  - destruct key; simpl.
    + case_match; [|apply same_world_processCommand].
      unfold applySuggestion. by repeat case_match.
    + unfold handleTabCompletion, showSuggestions. by repeat case_match.
    + unfold navigateSuggestions, navigateHistory. by repeat case_match.
    + unfold navigateSuggestions, navigateHistory. by repeat case_match.
    + done.
    + done.
  - intros line. apply (same_world_processCommand v (set_commandInput t line)).
Qed.

(** Enter with a suggestion selected only takes the suggestion over into the
    input box and closes the box: no command runs, the output pane, the
    history and the counter stay as they were. *)
Theorem enter_applies_selection (v : Variant) (t : Terminal) (s : Suggestion) :
  (0 ≤ selectedSuggestionIndex t)%Z →
  suggestions t !! Z.to_nat (selectedSuggestionIndex t) = Some s →
  let t' := handleKeyDown v Enter t in
  commandInput t' = command s
  ∧ suggestions t' = [] ∧ selectedSuggestionIndex t' = (-1)%Z
  ∧ suggestionsShown t' = false
  ∧ terminalOutput t' = terminalOutput t
  ∧ commandHistory t' = commandHistory t
  ∧ commandCount t' = commandCount t
  ∧ currentPath t' = currentPath t.
Proof.
  intros Hsel Hs t'. subst t'. simpl. unfold applySuggestion.
  apply Z.leb_le in Hsel. rewrite Hsel, Hs. by repeat split.
Qed.

(** The first of the suggestions for [c], selected with the down arrow. *)
Lemma enter_applies_selection_witness :
  let t := handleKeyDown MultiDistro ArrowDown (showSuggestions "c" (scenarioTerminal "user")) in
  let t' := handleKeyDown MultiDistro Enter t in
  commandInput t' = command (mkSuggestion "cat" "Display file contents")
  ∧ suggestions t' = [] ∧ selectedSuggestionIndex t' = (-1)%Z
  ∧ suggestionsShown t' = false
  ∧ terminalOutput t' = terminalOutput t
  ∧ commandHistory t' = commandHistory t
  ∧ commandCount t' = commandCount t
  ∧ currentPath t' = currentPath t.
Proof.
  apply (enter_applies_selection MultiDistro
           (handleKeyDown MultiDistro ArrowDown
              (showSuggestions "c" (scenarioTerminal "user")))
           (mkSuggestion "cat" "Display file contents")).
  - vm_compute. discriminate.
  - vm_compute. reflexivity.
Defined.

(** The selection walks round the suggestions: from any state that has
    [items] of them and a selection below [items], an arrow key leaves the
    selection on one of the items; up from the first item (or from no
    selection) goes to the last, down from the last goes to the first, and
    down undoes up on every item. *)
Theorem navigateSuggestions_wraps (items : nat) (t : Terminal) :
  (0 < items)%nat →
  (-1 ≤ selectedSuggestionIndex t < Z.of_nat items)%Z →
  let n := Z.of_nat items in
  let selected := selectedSuggestionIndex t in
  let up := selectedSuggestionIndex (navigateSuggestions Up items t) in
  let down := selectedSuggestionIndex (navigateSuggestions Down items t) in
  (0 ≤ up < n)%Z ∧ (0 ≤ down < n)%Z
  ∧ ((selected ≤ 0)%Z → up = (n - 1)%Z)
  ∧ (selected = (n - 1)%Z → down = 0%Z)
  ∧ ((0 ≤ selected)%Z →
     selectedSuggestionIndex
       (navigateSuggestions Down items (navigateSuggestions Up items t)) = selected).
Proof.
  intros Hitems Hsel n selected up down. subst up down.
  unfold navigateSuggestions. destruct items as [|m]; [lia|].
  fold n. fold selected.
  assert ((0 <=? selected)%Z && (n <=? selected)%Z = false) as Hguard.
  { apply andb_false_iff. right. apply Z.leb_gt. subst n selected. lia. }
  rewrite Hguard. simpl selectedSuggestionIndex.
  assert (n = Z.of_nat (S m)) as Hn by done.
  destruct (Z.leb_spec selected 0) as [Hle|Hgt];
    destruct (Z.leb_spec (n - 1) selected) as [Hge|Hlt].
  all: repeat split; try lia.
  all: intros Hs.
  all: repeat
         match goal with
         | |- context [(?a <=? ?b)%Z] => destruct (Z.leb_spec a b); simpl
         end; try lia.
Qed.

(** Five suggestions, the second one selected. *)
Lemma navigateSuggestions_wraps_witness :
  let t := set_suggestions (scenarioTerminal "user")
             (getCommandSuggestions EmptyString (scenarioTerminal "user")) 1 true in
  let n := Z.of_nat 5 in
  let selected := selectedSuggestionIndex t in
  let up := selectedSuggestionIndex (navigateSuggestions Up 5 t) in
  let down := selectedSuggestionIndex (navigateSuggestions Down 5 t) in
  (0 ≤ up < n)%Z ∧ (0 ≤ down < n)%Z
  ∧ ((selected ≤ 0)%Z → up = (n - 1)%Z)
  ∧ (selected = (n - 1)%Z → down = 0%Z)
  ∧ ((0 ≤ selected)%Z →
     selectedSuggestionIndex
       (navigateSuggestions Down 5 (navigateSuggestions Up 5 t)) = selected).
Proof.
  apply (navigateSuggestions_wraps 5
           (set_suggestions (scenarioTerminal "user")
              (getCommandSuggestions EmptyString (scenarioTerminal "user")) 1 true)).
  - lia.
  - simpl. lia.
Defined.

Lemma or_else_empty (s : string) : or_else (Some s) EmptyString = s.
Proof. unfold or_else. by destruct (String.eqb_spec s EmptyString) as [->|]. Qed.

(** The arrows move the history cursor by one and stop at both ends: up
    always shows the entry under the cursor, and stays on the first entry;
    down stops behind the last entry, where the input box is empty; inside
    the history each arrow undoes the other.  The history itself is not
    touched. *)
Theorem navigateHistory_moves (t : Terminal) :
  commandHistory t ≠ [] →
  (historyIndex t ≤ length (commandHistory t))%nat →
  let index := historyIndex t in
  let size := length (commandHistory t) in
  let up := navigateHistory Up t in
  let down := navigateHistory Down t in
  historyIndex up = (index - 1)%nat
  ∧ commandHistory t !! historyIndex up = Some (commandInput up)
  ∧ historyIndex down = Nat.min size (index + 1)
  ∧ (historyIndex down = size → commandInput down = EmptyString)
  ∧ ((0 < index)%nat → historyIndex (navigateHistory Down up) = index)
  ∧ ((index < size)%nat → historyIndex (navigateHistory Up down) = index)
  ∧ commandHistory up = commandHistory t ∧ commandHistory down = commandHistory t.
Proof.
  intros Hne Hle index size up down. subst up down index size.
  unfold navigateHistory.
  destruct (commandHistory t) as [|cmd rest] eqn:Hh; [done|]. clear Hne.
  simpl commandHistory. simpl historyIndex. simpl commandInput. simpl length in *.
  generalize dependent (historyIndex t). intros index Hle.
  split; [|split; [|split; [|split; [|split; [|split]]]]].
  - destruct (Nat.ltb_spec 0 index); lia.
  - assert ((if Nat.ltb 0 index then index - 1 else index) < length (cmd :: rest))%nat
      as Hlt by (simpl; destruct (Nat.ltb_spec 0 index); lia).
    apply lookup_lt_is_Some in Hlt as [e He]. rewrite He. by rewrite or_else_empty.
  - destruct (Nat.ltb_spec index (S (length rest))); lia.
  - intros ->. rewrite lookup_ge_None_2; [done | simpl; lia].
  - intros Hpos. destruct (Nat.ltb_spec 0 index); [|lia].
    destruct (Nat.ltb_spec (index - 1) (S (length rest))); lia.
  - intros Hlt. destruct (Nat.ltb_spec index (S (length rest))); [|lia].
    destruct (Nat.ltb_spec 0 (index + 1)); lia.
  - done.
Qed.

(** The recall on the terminal that ran [ls] and then [pwd]. *)
Lemma navigateHistory_moves_witness :
  let t := historyTerminal in
  let index := historyIndex t in
  let size := length (commandHistory t) in
  let up := navigateHistory Up t in
  let down := navigateHistory Down t in
  historyIndex up = (index - 1)%nat
  ∧ commandHistory t !! historyIndex up = Some (commandInput up)
  ∧ historyIndex down = Nat.min size (index + 1)
  ∧ (historyIndex down = size → commandInput down = EmptyString)
  ∧ ((0 < index)%nat → historyIndex (navigateHistory Down up) = index)
  ∧ ((index < size)%nat → historyIndex (navigateHistory Up down) = index)
  ∧ commandHistory up = commandHistory t ∧ commandHistory down = commandHistory t.
Proof.
  apply (navigateHistory_moves historyTerminal).
  - vm_compute. discriminate.
  - vm_compute. lia.
Defined.


Example tab_completes_who :
  commandInput
    (handleKeyDown MultiDistro Tab (set_commandInput (scenarioTerminal "user") "WHO")) =
  "whoami".
Proof. by vm_compute. Qed.

(** ** Paths and their parents *)

Lemma append_cons (c : ascii) (s r : string) : String c s +:+ r = String c (s +:+ r).
Proof. reflexivity. Qed.

Lemma append_assoc_str (a b c : string) : (a +:+ b) +:+ c = a +:+ (b +:+ c).
Proof. induction a as [|x a IH]; [done|]. by rewrite !append_cons, IH. Qed.

Lemma append_empty_r (s : string) : s +:+ EmptyString = s.
Proof. induction s as [|x s IH]; [done|]. by rewrite append_cons, IH. Qed.

Lemma split_on_segment (x cur : string) :
  no_slash x = true → Js.split_on_from "/" cur x = [cur +:+ x].
Proof.
  revert cur. induction x as [|c x IH]; intros cur Hx; simpl in *.
  - by rewrite append_empty_r.
  - apply andb_true_iff in Hx as [Hc Hx]. apply negb_true_iff in Hc. rewrite Hc.
    rewrite IH by done. by rewrite append_assoc_str.
Qed.

Lemma split_on_segment_slash (x cur rest : string) :
  no_slash x = true →
  Js.split_on_from "/" cur (x +:+ "/" +:+ rest) =
  (cur +:+ x) :: Js.split_on_from "/" EmptyString rest.
Proof.
  revert cur. induction x as [|c x IH]; intros cur Hx.
  - simpl. by rewrite append_empty_r.
  - simpl in Hx. apply andb_true_iff in Hx as [Hc Hx]. apply negb_true_iff in Hc.
    rewrite append_cons. simpl. rewrite Hc.
    rewrite IH by done. by rewrite append_assoc_str.
Qed.

(** Splitting at the slashes undoes joining segments with slashes. *)
Lemma split_on_join (segs : list string) :
  Forall is_segment segs → segs ≠ [] →
  Js.split_on "/" (Js.join "/" segs) = segs.
Proof.
  unfold Js.split_on. induction 1 as [|x segs [_ Hx] Hsegs IH]; [done|]. intros _.
  destruct segs as [|y rest].
  - simpl. by rewrite split_on_segment.
  - change (Js.join "/" (x :: y :: rest)) with (x +:+ "/" +:+ Js.join "/" (y :: rest)).
    rewrite split_on_segment_slash by done. by rewrite IH.
Qed.

Lemma filter_segments (segs : list string) :
  Forall is_segment segs →
  List.filter (fun part => negb (String.eqb part EmptyString)) segs = segs.
Proof.
  induction 1 as [|x segs [Hne _] _ IH]; [done|]. simpl.
  apply String.eqb_neq in Hne. by rewrite Hne, IH.
Qed.

Lemma join_snoc (segs : list string) (name : string) :
  segs ≠ [] →
  Js.join "/" (segs ++ [name]) = Js.join "/" segs +:+ "/" +:+ name.
Proof.
  induction segs as [|x segs IH]; [done|]. intros _.
  destruct segs as [|y rest]; [done|].
  change (Js.join "/" ((x :: y :: rest) ++ [name]))
    with (x +:+ "/" +:+ Js.join "/" ((y :: rest) ++ [name])).
  rewrite IH by done.
  change (Js.join "/" (x :: y :: rest)) with (x +:+ "/" +:+ Js.join "/" (y :: rest)).
  by rewrite !append_assoc_str.
Qed.

(** On an absolute path made of proper segments [getParentPath] drops the
    last segment (the root is its own parent), so that it undoes appending a
    segment to a directory path. *)
Theorem getParentPath_segments (segs : list string) (name : string) :
  Forall is_segment segs → is_segment name →
  getParentPath ("/" +:+ Js.join "/" segs) = "/" +:+ Js.join "/" (removelast segs)
  ∧ (segs ≠ [] →
     getParentPath (("/" +:+ Js.join "/" segs) +:+ "/" +:+ name) =
     "/" +:+ Js.join "/" segs).
Proof.
  intros Hsegs Hname.
  assert (∀ l, Forall is_segment l →
            getParentPath ("/" +:+ Js.join "/" l) = "/" +:+ Js.join "/" (removelast l))
    as Hparent.
  { intros l Hl. unfold getParentPath.
    change (Js.split_on "/" ("/" +:+ Js.join "/" l))
      with (EmptyString :: Js.split_on "/" (Js.join "/" l)).
    destruct l as [|x l]; [done|].
    rewrite split_on_join by done.
    change (List.filter (fun part => negb (String.eqb part EmptyString))
              (EmptyString :: x :: l))
      with (List.filter (fun part => negb (String.eqb part EmptyString)) (x :: l)).
    rewrite filter_segments by done.
    destruct l as [|y l]; [done|]. reflexivity. }
  split; [by apply Hparent|].
  intros Hne. rewrite append_assoc_str, <- join_snoc by done.
  rewrite Hparent by (apply Forall_app; split; [done | by constructor]).
  by rewrite removelast_last.
Qed.

(** The path of the home directory of [user], and of [sub] below it. *)
Lemma getParentPath_segments_witness :
  getParentPath ("/" +:+ Js.join "/" ["home"; "user"]) =
    "/" +:+ Js.join "/" (removelast ["home"; "user"])
  ∧ (["home"; "user"] ≠ [] →
     getParentPath (("/" +:+ Js.join "/" ["home"; "user"]) +:+ "/" +:+ "sub") =
     "/" +:+ Js.join "/" ["home"; "user"]).
Proof.
  apply (getParentPath_segments ["home"; "user"] "sub").
  - repeat constructor; discriminate.
  - split; [discriminate | reflexivity].
Defined.

(** ** What the built filesystem holds *)

Lemma insert_keeps {A} (fs : gmap string A) (k q : string) (n : A) :
  is_Some (fs !! q) → is_Some (<[k := n]> fs !! q).
Proof.
  intros Hq. apply lookup_insert_is_Some.
  destruct (decide (k = q)); [by left | by right].
Qed.

Lemma fold_insert_keeps {A B} (key : B → string) (node : B → A) (l : list B)
    (fs : gmap string A) (q : string) :
  is_Some (fs !! q) →
  is_Some (fold_left (fun fs' x => <[key x := node x]> fs') l fs !! q).
Proof.
  revert fs. induction l as [|x l IH]; intros fs Hq; simpl; [done|].
  by apply IH, insert_keeps.
Qed.

Lemma fold_insert_adds {A B} (key : B → string) (node : B → A) (l : list B)
    (fs : gmap string A) (x : B) :
  In x l →
  is_Some (fold_left (fun fs' y => <[key y := node y]> fs') l fs !! key x).
Proof.
  revert fs. induction l as [|y l IH]; intros fs Hin; simpl; [done|].
  destruct Hin as [->|Hin]; [|by apply IH].
  apply fold_insert_keeps. rewrite lookup_insert_eq. eauto.
Qed.

Lemma setupDirectory_keeps (usr : string) (fs : FileSystem)
    (entry : string * list string) (q : string) :
  is_Some (fs !! q) → is_Some (setupDirectory usr fs entry !! q).
Proof.
  intros Hq. destruct entry as [path contents]. unfold setupDirectory.
  apply (fold_insert_keeps
           (fun dir => Js.replace path "~" ("/home/" +:+ usr) +:+ "/" +:+
                       Js.replace dir "/" EmptyString)
           (fun _ => Directory [] (Js.replace path "~" ("/home/" +:+ usr)))).
  by apply insert_keeps.
Qed.

Lemma setupDirectory_adds (usr : string) (fs : FileSystem) (path : string)
    (contents : list string) (dir : string) :
  let fullPath := Js.replace path "~" ("/home/" +:+ usr) in
  let fs' := setupDirectory usr fs (path, contents) in
  is_Some (fs' !! fullPath)
  ∧ (In dir contents → Js.endsWith dir "/" = true →
     is_Some (fs' !! (fullPath +:+ "/" +:+ Js.replace dir "/" EmptyString))).
Proof.
  intros fullPath fs'. subst fs'. unfold setupDirectory. fold fullPath. split.
  - apply (fold_insert_keeps
             (fun dir => fullPath +:+ "/" +:+ Js.replace dir "/" EmptyString)
             (fun _ => Directory [] fullPath)).
    rewrite lookup_insert_eq. eauto.
  - intros Hin Hdir.
    apply (fold_insert_adds
             (fun dir => fullPath +:+ "/" +:+ Js.replace dir "/" EmptyString)
             (fun _ => Directory [] fullPath)).
    apply filter_In. by split.
Qed.

Lemma directories_keep (usr : string) (entries : JsObject (list string))
    (fs : FileSystem) (q : string) :
  is_Some (fs !! q) → is_Some (fold_left (setupDirectory usr) entries fs !! q).
Proof.
  revert fs. induction entries as [|entry entries IH]; intros fs Hq; simpl; [done|].
  by apply IH, setupDirectory_keeps.
Qed.

Lemma files_keep (usr : string) (fl : JsObject string) (fs : FileSystem) (q : string) :
  is_Some (fs !! q) → is_Some (fold_left (setupFile usr) fl fs !! q).
Proof.
  revert fs. induction fl as [|[filename content] fl IH]; intros fs Hq; simpl; [done|].
  by apply IH, insert_keeps.
Qed.

(** A node of the finished mapping is the one the directory loops left, or
    a file of [config.files]. *)
Lemma files_phase (usr : string) (fl : JsObject string) (fs : FileSystem)
    (q : string) (n : FsNode) :
  fold_left (setupFile usr) fl fs !! q = Some n →
  fs !! q = Some n
  ∨ ∃ filename content,
      In (filename, content) fl ∧ q = "/home/" +:+ usr +:+ "/" +:+ filename.
Proof.
  revert fs. induction fl as [|[filename content] fl IH]; intros fs Hq; simpl in *;
    [by left|].
  apply IH in Hq as [Hq|(f & c & Hin & ->)]; [|right; eauto].
  destruct (decide ("/home/" +:+ usr +:+ "/" +:+ filename = q)) as [<-|Hne].
  - right. eauto.
  - rewrite lookup_insert_ne in Hq by done. by left.
Qed.

Lemma directories_only (usr : string) (entries : JsObject (list string)) (q : string) :
  is_Some (fold_left (setupDirectory usr) entries ∅ !! q) →
  holds_directory (fold_left (setupDirectory usr) entries ∅) q.
Proof.
  intros [n Hn].
  assert (all_shaped usr [] (fold_left (setupDirectory usr) entries ∅)) as Hall.
  { apply all_shaped_directories. intros p m Hp. by rewrite lookup_empty in Hp. }
  specialize (Hall q n Hn). destruct n as [contents parent|content parent].
  - by exists contents, parent.
  - destruct Hall as [_ (f & [] & _)].
Qed.

Lemma present_after_files (cfg : Config) (q : string) :
  is_Some (fold_left (setupDirectory (user (system cfg))) (filesystem cfg) ∅ !! q) →
  holds_directory (setupFileSystemFromConfig cfg) q ∨ file_path cfg q.
Proof.
  intros Hq. pose proof (directories_only _ _ _ Hq) as (c & p & Hdir).
  unfold setupFileSystemFromConfig.
  destruct (files_keep (user (system cfg)) (files cfg) _ q Hq) as [n Hn].
  pose proof Hn as Hn'.
  apply files_phase in Hn' as [Hsame|(f & content & Hin & ->)].
  - left. exists c, p. rewrite Hn. rewrite Hdir in Hsame. done.
  - right. by exists f, content.
Qed.

(** Every directory the configuration declares, and every entry of it that
    ends in a slash, is a directory of the built filesystem, unless
    [config.files] puts a file at that very path. *)
Theorem setupFileSystem_directories (cfg : Config) (path : string)
    (contents : list string) :
  In (path, contents) (filesystem cfg) →
  let fs := setupFileSystemFromConfig cfg in
  let fullPath := Js.replace path "~" ("/home/" +:+ user (system cfg)) in
  (holds_directory fs fullPath ∨ file_path cfg fullPath)
  ∧ ∀ dir, In dir contents → Js.endsWith dir "/" = true →
      let dirPath := fullPath +:+ "/" +:+ Js.replace dir "/" EmptyString in
      holds_directory fs dirPath ∨ file_path cfg dirPath.
Proof.
  intros Hin fs fullPath. subst fs.
  assert (∀ entries fs0 dir,
            In (path, contents) entries →
            is_Some (fold_left (setupDirectory (user (system cfg))) entries fs0 !! fullPath)
            ∧ (In dir contents → Js.endsWith dir "/" = true →
               is_Some (fold_left (setupDirectory (user (system cfg))) entries fs0
                        !! (fullPath +:+ "/" +:+ Js.replace dir "/" EmptyString))))
    as Hpresent.
  { induction entries as [|entry entries IH]; intros fs0 dir Hentry; [done|]. simpl.
    destruct Hentry as [->|Hentry]; [|by apply IH].
    destruct (setupDirectory_adds (user (system cfg)) fs0 path contents dir) as [Hfull Hdir].
    split; [by apply directories_keep|].
    intros Hd He. by apply directories_keep, Hdir. }
  split.
  - apply present_after_files. by apply (Hpresent _ ∅ EmptyString).
  - intros dir Hd He dirPath. apply present_after_files.
    by apply (Hpresent _ ∅ dir).
Qed.

(** The entry [sub/] of the home directory in the scenario. *)
Lemma setupFileSystem_directories_witness :
  let cfg := scenarioConfig "user" in
  let fs := setupFileSystemFromConfig cfg in
  let fullPath := Js.replace "~" "~" ("/home/" +:+ user (system cfg)) in
  (holds_directory fs fullPath ∨ file_path cfg fullPath)
  ∧ ∀ dir, In dir ["a.txt"; "sub/"] → Js.endsWith dir "/" = true →
      let dirPath := fullPath +:+ "/" +:+ Js.replace dir "/" EmptyString in
      holds_directory fs dirPath ∨ file_path cfg dirPath.
Proof.
  apply (setupFileSystem_directories (scenarioConfig "user") "~" ["a.txt"; "sub/"]).
  simpl. by left.
Defined.

(** ** Reading a configured file *)

Lemma append_inj_r (a x y : string) : a +:+ x = a +:+ y → x = y.
Proof.
  induction a as [|c a IH]; [done|]. rewrite !append_cons. intros [= H]. by apply IH.
Qed.

Lemma files_untouched (usr : string) (fl : JsObject string) (fs : FileSystem)
    (filename : string) :
  filename ∉ Object_keys fl →
  fold_left (setupFile usr) fl fs !! ("/home/" +:+ usr +:+ "/" +:+ filename) =
  fs !! ("/home/" +:+ usr +:+ "/" +:+ filename).
Proof.
  revert fs. induction fl as [|[f c] fl IH]; intros fs Hnotin; simpl in *; [done|].
  apply not_elem_of_cons in Hnotin as [Hne Hnotin].
  rewrite IH by done. apply lookup_insert_ne.
  intros Heq. apply Hne. apply append_inj_r in Heq.
  apply (append_inj_r usr) in Heq. by apply (append_inj_r "/") in Heq.
Qed.

Lemma files_lookup (usr : string) (fl : JsObject string) (fs : FileSystem)
    (filename content : string) :
  NoDup (Object_keys fl) → In (filename, content) fl →
  fold_left (setupFile usr) fl fs !! ("/home/" +:+ usr +:+ "/" +:+ filename) =
  Some (File content ("/home/" +:+ usr)).
Proof.
  revert fs. induction fl as [|[f c] fl IH]; intros fs Hnd Hin; simpl in *; [done|].
  apply NoDup_cons in Hnd as [Hnotin Hnd].
  destruct Hin as [[= -> ->]|Hin]; [|by apply IH].
  rewrite files_untouched by done. apply lookup_insert_eq.
Qed.

Lemma prefix_cons (a b : ascii) (p s : string) :
  String.prefix (String a p) (String b s) =
  if ascii_dec a b then String.prefix p s else false.
Proof. reflexivity. Qed.

Lemma find_first_double_slash (s : string) :
  no_double_slash s = true → Js.find_first "//" s = None.
Proof.
  induction s as [|c s IH]; [done|]. intros Hs.
  simpl in Hs. apply andb_true_iff in Hs as [Hc Hs].
  rewrite find_first_unfold, IH by done.
  replace (String.prefix "//" (String c s)) with false; [done|].
  symmetry. rewrite prefix_cons. destruct (ascii_dec "/" c) as [<-|]; [|done].
  destruct s as [|c' s]; [done|]. rewrite prefix_cons.
  destruct (ascii_dec "/" c') as [<-|]; [|done]. by simpl in Hc.
Qed.

Lemma no_double_slash_segment (x r : string) :
  no_slash x = true → no_double_slash (x +:+ r) = no_double_slash r.
Proof.
  induction x as [|c x IH]; [done|]. intros Hx. simpl in Hx.
  apply andb_true_iff in Hx as [Hc Hx]. apply negb_true_iff in Hc.
  rewrite append_cons. simpl. rewrite Hc. simpl. by apply IH.
Qed.

Lemma segment_starts (x r : string) :
  is_segment x → starts_with_slash (x +:+ r) = false.
Proof.
  intros [Hne Hx]. destruct x as [|c x]; [done|]. simpl in *.
  apply andb_true_iff in Hx as [Hc _]. by apply negb_true_iff in Hc.
Qed.

Lemma segment_not_absolute (x : string) : is_segment x → Js.startsWith x "/" = false.
Proof.
  intros Hx. pose proof (segment_starts x EmptyString Hx) as Hs.
  rewrite append_empty_r in Hs. destruct x as [|c x]; [done|].
  unfold Js.startsWith. rewrite prefix_cons.
  destruct (ascii_dec "/" c) as [<-|]; [by simpl in Hs | done].
Qed.

Lemma home_file_path_plain (usr filename : string) :
  is_segment usr → is_segment filename →
  no_double_slash ("/home/" +:+ usr +:+ "/" +:+ filename) = true.
Proof.
  intros Husr Hfile.
  change ("/home/" +:+ usr +:+ "/" +:+ filename)
    with (String "/" (String "h" (String "o" (String "m" (String "e"
            (String "/" (usr +:+ String "/" filename))))))).
  cbn [no_double_slash starts_with_slash Ascii.eqb Bool.eqb andb negb].
  rewrite (segment_starts usr _ Husr). simpl.
  rewrite no_double_slash_segment by apply Husr.
  simpl. rewrite <- (append_empty_r filename) at 1.
  rewrite (segment_starts filename _ Hfile). simpl.
  rewrite <- (append_empty_r filename). by rewrite no_double_slash_segment by apply Hfile.
Qed.

(** After [loadConfig], [cat] prints the content of every file of
    [config.files] whose name is a plain segment, as one line without style
    class. *)
Theorem cat_configured_file (cfg : Config) (t0 : Terminal) (filename content : string) :
  is_segment (user (system cfg)) → is_segment filename →
  filename ≠ ".." → filename ≠ "." →
  NoDup (Object_keys (files cfg)) → In (filename, content) (files cfg) →
  let t := Multi.loadConfig cfg t0 in
  terminalOutput (handleCat [filename] t) =
  terminalOutput t ++ [mkLine content EmptyString].
Proof.
  intros Husr Hfile Hdd Hd Hnd Hin t.
  assert (resolvePath (Some filename) t =
          "/home/" +:+ user (system cfg) +:+ "/" +:+ filename) as Hpath.
  { unfold resolvePath.
    pose proof Hfile as [Hne Hns]. apply String.eqb_neq in Hne, Hdd, Hd.
    rewrite Hne, (segment_not_absolute filename), Hdd, Hd by done.
    change (currentPath t) with ("/home/" +:+ user (system cfg)).
    rewrite append_assoc_str. unfold Js.replace.
    by rewrite find_first_double_slash by by apply home_file_path_plain. }
  unfold handleCat. rewrite Hpath. unfold fs_get.
  change (fileSystem t) with (setupFileSystemFromConfig cfg).
  unfold setupFileSystemFromConfig. by rewrite (files_lookup _ _ _ filename content).
Qed.

(** The file [a.txt] of the scenario. *)
Lemma cat_configured_file_witness :
  let t := Multi.loadConfig (scenarioConfig "user") customTerminal in
  terminalOutput (handleCat ["a.txt"] t) =
  terminalOutput t ++ [mkLine "hello" EmptyString].
Proof.
  apply (cat_configured_file (scenarioConfig "user") customTerminal "a.txt" "hello").
  - split; [discriminate | reflexivity].
  - split; [discriminate | reflexivity].
  - discriminate.
  - discriminate.
  - apply (bool_decide_unpack _). vm_compute. reflexivity.
  - simpl. by left.
Defined.

(** ** Which command touches what *)

Lemma keeps_renderLines {A} (f : Terminal → A) (ls : list Line) (t : Terminal) :
  (∀ txt cls t', f (renderLine txt cls t') = f t') →
  f (renderLines ls t) = f t.
Proof.
  intros Hf. unfold renderLines. revert t.
  induction ls as [|l ls IH]; intros t; simpl; [done|]. by rewrite IH, Hf.
Qed.

Ltac keeps f :=
  repeat case_match; simpl;
  repeat (rewrite (keeps_renderLines f) by reflexivity; simpl);
  try reflexivity.

Lemma builtinCommand_keeps (cmdObj : Js.value CmdObj) (args : list string)
    (command : string) (t : Terminal) :
  currentPath (builtinCommand cmdObj args command t) = currentPath t
  ∧ currentTheme (builtinCommand cmdObj args command t) = currentTheme t
  ∧ reloadScheduled (builtinCommand cmdObj args command t) = reloadScheduled t
  ∧ storedDistro (builtinCommand cmdObj args command t) = storedDistro t.
Proof.
  unfold builtinCommand, staticOutput, showHelp, handleCat, handleLs.
  repeat split; [keeps currentPath | keeps currentTheme | keeps reloadScheduled
                | keeps storedDistro].
Qed.

(** What [processCommand] runs for a line that is not blank. *)
Lemma submit_runs (v : Variant) (line : string) (t : Terminal) :
  Js.trim line ≠ EmptyString →
  ∃ args name,
    submit v line t =
    hideSuggestions
      (set_commandInput
         (if truthy (dispatched t (firstWord line) (Js.trim line))
          then handleCommand v (dispatched t (firstWord line) (Js.trim line))
                 args name (counted v line t)
          else renderLine
                 (Js.replace (commandNotFound (system (config t))) "{cmd}" (firstWord line))
                 "output-error" (counted v line t))
         EmptyString).
Proof.
  intros Hne. unfold submit, processCommand, firstWord, dispatched. simpl commandInput.
  apply String.eqb_neq in Hne. rewrite Hne.
  destruct (Js.split_ws (Js.trim line)) as [|command args] eqn:Hs;
    [by apply split_ws_from_not_nil in Hs|].
  unfold executeCommand.
  change (commands (config (set_commandCount _ _))) with (commands (config t)).
  destruct (truthy (obj_get (commands (config t)) (Js.trim line))) eqn:Hfull.
  - exists args, (Js.trim line). by rewrite ?Hfull.
  - exists args, command. rewrite ?Hfull.
    by destruct (truthy (obj_get (commands (config t)) command)).
Qed.

Lemma handleCommand_action (v : Variant) (cmdObj : Js.value CmdObj)
    (args : list string) (name : string) (t : Terminal) :
  (get_action cmdObj ≠ Some "changeDirectory" →
   currentPath (handleCommand v cmdObj args name t) = currentPath t)
  ∧ (get_action cmdObj ≠ Some "toggleTheme" →
     currentTheme (handleCommand v cmdObj args name t) = currentTheme t)
  ∧ (get_action cmdObj ≠ Some "switchDistro" →
     reloadScheduled (handleCommand v cmdObj args name t) = reloadScheduled t
     ∧ storedDistro (handleCommand v cmdObj args name t) = storedDistro t).
Proof.
  pose proof (builtinCommand_keeps cmdObj args name t) as (Hp & Hth & Hr & Hs).
  unfold handleCommand.
  destruct (get_action cmdObj) as [a|]; [|done].
  split; [|split]; intros Hne; [| |split].
  all: repeat case_match; try assumption.
  all: try by (exfalso; apply Hne; f_equal; apply String.eqb_eq).
  all: unfold clearScreen, showHistory, toggleTheme, changeDirectory, makeDirectory,
         createFile, removeFile, switchDistro, listDistros.
  all: first [ solve [keeps currentPath] | solve [keeps currentTheme]
             | solve [keeps reloadScheduled] | solve [keeps storedDistro] ].
Qed.

Lemma submit_keeps (v : Variant) (line : string) (t : Terminal) :
  let t' := submit v line t in
  (lineAction t line ≠ Some "changeDirectory" → currentPath t' = currentPath t)
  ∧ (lineAction t line ≠ Some "toggleTheme" → currentTheme t' = currentTheme t)
  ∧ (lineAction t line ≠ Some "switchDistro" →
     reloadScheduled t' = reloadScheduled t ∧ storedDistro t' = storedDistro t).
Proof.
  intros t'. subst t'. unfold lineAction.
  destruct (decide (Js.trim line = EmptyString)) as [Hblank|Hne].
  - unfold submit, processCommand. simpl commandInput. rewrite Hblank. simpl.
    by repeat split.
  - destruct (submit_runs v line t Hne) as (args & name & ->).
    rewrite (proj2 (String.eqb_neq _ _) Hne).
    destruct (truthy (dispatched t (firstWord line) (Js.trim line))); [|by repeat split].
    pose proof (handleCommand_action v (dispatched t (firstWord line) (Js.trim line))
                  args name (counted v line t)) as (Hp & Hth & Hr).
    split; [|split]; intros Hne'; simpl.
    + by rewrite Hp.
    + by rewrite Hth.
    + destruct (Hr Hne') as [Hr1 Hr2]. split; [by rewrite Hr1 | by rewrite Hr2].
Qed.


Lemma handleCommand_known (v : Variant) (cmdObj : Js.value CmdObj)
    (args : list string) (name : string) (t : Terminal) :
  (get_action cmdObj = Some "clearScreen" →
   handleCommand v cmdObj args name t = clearScreen t)
  ∧ (get_action cmdObj = Some "changeDirectory" →
     handleCommand v cmdObj args name t = changeDirectory (head args) t)
  ∧ (get_action cmdObj = Some "showHistory" →
     handleCommand v cmdObj args name t = showHistory t).
Proof. unfold handleCommand. repeat split; by intros ->. Qed.

Lemma action_truthy (cmdObj : Js.value CmdObj) (a : string) :
  get_action cmdObj = Some a → truthy cmdObj = true.
Proof. by destruct cmdObj. Qed.



(** ** Moving through the directories *)

Lemma changeDirectory_lands (path : option string) (t : Terminal) :
  fileSystem (changeDirectory path t) = fileSystem t
  ∧ (currentPath (changeDirectory path t) = currentPath t
     ∨ currentPath (changeDirectory path t) = "/home/user"
     ∨ holds_directory (fileSystem t) (currentPath (changeDirectory path t))).
Proof.
  unfold changeDirectory.
  destruct (falsy path || String.eqb (interpolate path) "~").
  { split; [reflexivity | right; by left]. }
  unfold fs_get, Js.get.
  destruct (fileSystem t !! resolvePath path t) as [[c p|c p]|] eqn:Hn.
  - split; [reflexivity|]. right. right. by exists c, p.
  - split; [reflexivity | by left].
  - destruct (Js.is_prototype_name (resolvePath path t));
      (split; [reflexivity | by left]).
Qed.

(** As long as [/home/user] is a directory of the filesystem, the current
    path names a directory after every line, whatever the line was. *)
Theorem cwd_stays_directory (v : Variant) (line : string) (t : Terminal) :
  holds_directory (fileSystem t) "/home/user" →
  holds_directory (fileSystem t) (currentPath t) →
  holds_directory (fileSystem (submit v line t)) (currentPath (submit v line t)).
Proof.
  intros Hhome Hcwd.
  destruct (same_world_processCommand v (set_commandInput t line)) as (_ & Hfs & _).
  unfold submit at 1. rewrite Hfs. simpl fileSystem.
  destruct (decide (lineAction t line = Some "changeDirectory")) as [Hcd|Hother].
  - unfold lineAction in Hcd.
    destruct (String.eqb_spec (Js.trim line) EmptyString) as [|Hne]; [done|].
    destruct (submit_runs v line t Hne) as (args & name & ->).
    rewrite (action_truthy _ _ Hcd).
    rewrite (proj1 (proj2 (handleCommand_known v
                             (dispatched t (firstWord line) (Js.trim line))
                             args name (counted v line t))) Hcd).
    destruct (changeDirectory_lands (head args) (counted v line t)) as [_ [Hp|[Hp|Hp]]];
      simpl; [by rewrite Hp | by rewrite Hp | done].
  - destruct (submit_keeps v line t) as [Hp _]. by rewrite (Hp Hother).
Qed.

(** [cd sub] from the home directory of the scenario. *)
Lemma cwd_stays_directory_witness :
  holds_directory (fileSystem (submit MultiDistro "cd sub" (scenarioTerminal "user")))
    (currentPath (submit MultiDistro "cd sub" (scenarioTerminal "user"))).
Proof.
  apply (cwd_stays_directory MultiDistro "cd sub" (scenarioTerminal "user")).
  - exists ["a.txt"], "/home". vm_compute. reflexivity.
  - exists ["a.txt"], "/home". vm_compute. reflexivity.
Defined.

(** [cd ..] undoes a [cd] into a directory whose parent field names a
    directory: the current path becomes that parent, and nothing is printed.
    Where the parent is no directory of the filesystem, [cd ..] prints one
    error and stays. *)
Theorem cd_up_after_cd (t : Terminal) (p : string) (contents : list string)
    (parent : string) :
  p ≠ EmptyString → p ≠ "~" → parent ≠ EmptyString →
  fileSystem t !! resolvePath (Some p) t = Some (Directory contents parent) →
  let inside := changeDirectory (Some p) t in
  let back := changeDirectory (Some "..") inside in
  currentPath inside = resolvePath (Some p) t
  ∧ (holds_directory (fileSystem t) parent →
     currentPath back = parent ∧ terminalOutput back = terminalOutput t)
  ∧ (¬ holds_directory (fileSystem t) parent →
     currentPath back = currentPath inside
     ∧ ∃ msg, terminalOutput back = terminalOutput t ++ [mkLine msg "output-error"]).
Proof.
  intros Hne Htilde Hpar Hnode inside back.
  assert (inside = set_currentPath t (resolvePath (Some p) t)) as Hinside.
  { subst inside. unfold changeDirectory.
    apply String.eqb_neq in Hne, Htilde.
    replace (falsy (Some p) || String.eqb (interpolate (Some p)) "~") with false
      by (simpl; by rewrite Hne, Htilde).
    unfold fs_get, Js.get. by rewrite Hnode. }
  set (target := resolvePath (Some p) t) in *. clearbody target inside. subst inside.
  assert (resolvePath (Some "..") (set_currentPath t target) = parent) as Hup.
  { unfold resolvePath, fs_get, Js.get. simpl.
    rewrite Hnode. simpl. apply String.eqb_neq in Hpar. by rewrite Hpar. }
  split; [done|]. subst back.
  unfold changeDirectory. simpl falsy. simpl interpolate.
  cbn [orb String.eqb Ascii.eqb Bool.eqb].
  rewrite Hup. unfold fs_get, Js.get.
  change (fileSystem (set_currentPath t target)) with (fileSystem t).
  split.
  - intros (c & q & ->). by split.
  - intros Hnot. destruct (fileSystem t !! parent) as [[c q|c q]|] eqn:Hp.
    + exfalso. apply Hnot. by exists c, q.
    + split; [done|]. simpl. eauto.
    + destruct (Js.is_prototype_name parent); (split; [done|]); simpl; eauto.
Qed.

(** [cd sub] and [cd ..] in the scenario. *)
Lemma cd_up_after_cd_witness :
  let t := scenarioTerminal "user" in
  let inside := changeDirectory (Some "sub") t in
  let back := changeDirectory (Some "..") inside in
  currentPath inside = resolvePath (Some "sub") t
  ∧ (holds_directory (fileSystem t) "/home/user" →
     currentPath back = "/home/user" ∧ terminalOutput back = terminalOutput t)
  ∧ (¬ holds_directory (fileSystem t) "/home/user" →
     currentPath back = currentPath inside
     ∧ ∃ msg, terminalOutput back = terminalOutput t ++ [mkLine msg "output-error"]).
Proof.
  apply (cd_up_after_cd (scenarioTerminal "user") "sub" [] "/home/user").
  - discriminate.
  - discriminate.
  - discriminate.
  - vm_compute. reflexivity.
Defined.

(** From the home directory of the scenario [cd ..] fails: the parent
    [/home] is no node. *)
Example cd_up_from_home :
  terminalOutput (changeDirectory (Some "..") (scenarioTerminal "user")) =
  [ mkLine "cd: ..: No such file or directory" "output-error" ].
Proof. by vm_compute. Qed.

(** ** Action tags *)

(** An action tag that [handleCommand] has no case for is ignored: the
    command runs as if its descriptor had no tag, as a built-in or with its
    static output.  In [script.js] this is so for the two tags of the
    multi-distribution file. *)
Theorem unknown_action_falls_through (v : Variant) (entry : CmdObj) (a : string)
    (args : list string) (name : string) (t : Terminal) :
  action entry = Some a → a ∉ knownActions v →
  handleCommand v (Js.Own entry) args name t =
  builtinCommand (Js.Own entry) args name t.
Proof.
  intros Ha Hnot. unfold handleCommand. simpl. rewrite Ha.
  destruct v;
    repeat match goal with
           | |- context [String.eqb ?x ?k] =>
               destruct (String.eqb_spec x k) as [Heq|?];
                 [try reflexivity;
                  exfalso; apply Hnot; rewrite Heq;
                  apply (bool_decide_unpack _); reflexivity |]
           end;
    reflexivity.
Qed.

(** A descriptor tagged [switchDistro] in [script.js]. *)
Lemma unknown_action_falls_through_witness :
  handleCommand SingleDistro
    (Js.Own (mkCmdObj None (Some (OutStr "not here")) (Some "switchDistro")))
    ["ubuntu"] "switch-distro" (scenarioTerminal "user") =
  builtinCommand
    (Js.Own (mkCmdObj None (Some (OutStr "not here")) (Some "switchDistro")))
    ["ubuntu"] "switch-distro" (scenarioTerminal "user").
Proof.
  apply (unknown_action_falls_through SingleDistro
           (mkCmdObj None (Some (OutStr "not here")) (Some "switchDistro"))
           "switchDistro").
  - reflexivity.
  - apply (bool_decide_unpack _). vm_compute. reflexivity.
Defined.

(** ** The order of the command table *)

Lemma own_lookup_elem {A} (k : string) (o : JsObject A) :
  is_Some (own_lookup k o) ↔ k ∈ Object_keys o.
Proof.
  split.
  - induction o as [|[k' v'] o IH]; simpl; [by intros [? ?]|].
    destruct (String.eqb_spec k k') as [->|Hne]; intros Hs.
    + apply elem_of_cons. by left.
    + apply elem_of_cons. right. by apply IH.
  - intros Hin. destruct (own_lookup k o) eqn:Hl; [eauto|].
    exfalso. revert Hl. induction o as [|[k' v'] o IH]; simpl.
    + by apply elem_of_nil in Hin.
    + simpl in Hin. apply elem_of_cons in Hin as [->|Hin].
      * by rewrite String.eqb_refl.
      * destruct (String.eqb k k'); [done | by apply IH].
Qed.

Lemma keys_obj_set {A} (k : string) (v : A) (o : JsObject A) :
  Object_keys (obj_set k v o) = add_key (Object_keys o) k.
Proof.
  unfold add_key. induction o as [|[k' v'] o IH]; simpl; [done|].
  destruct (String.eqb_spec k k') as [->|Hne]; simpl.
  - rewrite bool_decide_eq_true_2; [done|]. apply elem_of_cons. by left.
  - rewrite IH. case_bool_decide as Hin.
    + rewrite bool_decide_eq_true_2; [done|]. apply elem_of_cons. by right.
    + rewrite bool_decide_eq_false_2; [done|].
      intros [?|?]%elem_of_cons; done.
Qed.

Lemma keys_mergeCore (core cmds : Table) :
  Forall (fun entry => Js.is_prototype_name (fst entry) = false) core →
  Object_keys (Multi.mergeCore core cmds) =
  fold_left add_key (Object_keys core) (Object_keys cmds).
Proof.
  unfold Multi.mergeCore. intros Hcore. revert cmds.
  induction Hcore as [|[cmd info] core Hcmd _ IH]; intros cmds; simpl; [done|].
  simpl in Hcmd. rewrite IH. f_equal.
  rewrite truthy_obj_get by done. case_bool_decide as Hs.
  - unfold add_key. rewrite bool_decide_eq_true_2; [done|]. by apply own_lookup_elem.
  - apply keys_obj_set.
Qed.

Lemma keys_stamp (k s : string) (cmds : Table) :
  Object_keys (Multi.stamp k s cmds) = Object_keys cmds.
Proof.
  unfold Multi.stamp, obj_get, Js.get.
  destruct (own_lookup k cmds) as [c|] eqn:Hc;
    [|by destruct (Js.is_prototype_name k)].
  rewrite keys_obj_set. unfold add_key. rewrite bool_decide_eq_true_2; [done|].
  apply own_lookup_elem. eauto.
Qed.

Lemma fold_add_key (ks l : list string) :
  NoDup ks →
  fold_left add_key ks l = l ++ List.filter (fun k => bool_decide (k ∉ l)) ks.
Proof.
  intros Hnd. revert l. induction Hnd as [|k ks Hk Hnd IH]; intros l; simpl.
  - by rewrite app_nil_r.
  - rewrite IH. unfold add_key. case_bool_decide as Hin.
    + rewrite bool_decide_eq_false_2; [done|]. by intros ?.
    + rewrite bool_decide_eq_true_2 by done. rewrite <- app_assoc. simpl. do 2 f_equal.
      apply filter_ext_in. intros x Hx%list_elem_of_In.
      apply bool_decide_ext. rewrite not_elem_of_app, not_elem_of_cons.
      split; [by intros (? & ? & ?)|]. intros Hxl. repeat split; [done| |apply not_elem_of_nil].
      intros ->. done.
Qed.

(** [enhanceConfig] keeps the commands of the distribution where they are
    and puts the commands it adds behind them, in a fixed order; this is the
    order in which [help] lists the commands and in which suggestions are
    offered. *)
Theorem enhanceConfig_key_order (t : Terminal) :
  let keys := Object_keys (commands (config t)) in
  Object_keys (commands (config (Multi.enhanceConfig t))) =
  keys ++ List.filter (fun k => bool_decide (k ∉ keys)) enhancedKeys.
Proof.
  intros keys.
  change (commands (config (Multi.enhanceConfig t)))
    with (Multi.enhanceCommands (user (system (config t))) (currentPath t)
            (commands (config t))).
  unfold Multi.enhanceCommands. rewrite !keys_stamp.
  rewrite keys_mergeCore by (repeat constructor).
  rewrite !keys_obj_set. fold keys.
  change (fold_left add_key (Object_keys Multi.coreCommands)
            (add_key (add_key keys "switch-distro") "list-distros"))
    with (fold_left add_key enhancedKeys keys).
  apply fold_add_key. apply (bool_decide_unpack _). by vm_compute.
Qed.

Example scenario_key_order :
  Object_keys (commands (config (scenarioTerminal "user"))) =
  [ "help"; "ls"; "cat"; "pwd"; "whoami"; "switch-distro"; "list-distros"; "cd";
    "mkdir"; "touch"; "rm"; "date"; "history"; "theme"; "clear" ].
Proof. by vm_compute. Qed.

(** ** The prompt *)






(** ** Theme and distribution *)

(** [theme] always ends on [dark] or [light] and never on the theme it
    started from; from either of the two, toggling twice gives the theme
    back.  Nothing else but the output pane changes. *)
Theorem toggleTheme_twice (t : Terminal) :
  let once := toggleTheme t in
  let twice := toggleTheme once in
  (currentTheme once = "dark" ∨ currentTheme once = "light")
  ∧ currentTheme once ≠ currentTheme t
  ∧ (currentTheme t = "dark" ∨ currentTheme t = "light" →
     currentTheme twice = currentTheme t)
  ∧ command_frame t twice ∧ currentPath twice = currentPath t.
Proof.
  intros once twice. subst once twice. unfold toggleTheme. simpl.
  destruct (String.eqb_spec (currentTheme t) "dark") as [Hd|Hd]; simpl.
  - rewrite Hd. split; [by right|]. split; [done|]. split; [done|]. by repeat split.
  - split; [by left|]. split; [congruence|].
    split; [intros [Hdark|Hlight]; [done | by rewrite Hlight]|]. by repeat split.
Qed.

(** [switchDistro] schedules a reload and stores the new preference only for
    a name that the registry knows and that is not the current distribution;
    in every other case it only prints, and the selector of the header does
    not even print when the current distribution is chosen again. *)
Theorem switchDistro_guards (distroName : option string) (t : Terminal) :
  let d := interpolate distroName in
  let accepted :=
    negb (falsy distroName)
    && truthy (obj_get (distributions (distroManager t)) d)
    && negb (String.eqb d (currentDistro t)) in
  let t' := switchDistro distroName t in
  reloadScheduled t' = (if accepted then true else reloadScheduled t)
  ∧ storedDistro t' = (if accepted then Some d else storedDistro t)
  ∧ terminalOutput t' ≠ terminalOutput t
  ∧ command_frame t t'
  ∧ selectDistro (currentDistro t) t = t.
Proof.
  intros d accepted t'. subst d accepted t'. unfold switchDistro.
  assert (∀ (out : list Line) l rest, out ++ l :: rest ≠ out) as Hgrow.
  { intros out l rest Heq. apply (f_equal length) in Heq.
    rewrite length_app in Heq. simpl in Heq. lia. }
  destruct (falsy distroName); simpl.
  { repeat split; try done. rewrite <- app_assoc. apply Hgrow.
    unfold selectDistro. rewrite String.eqb_refl. by rewrite andb_false_r. }
  destruct (truthy (obj_get (distributions (distroManager t)) (interpolate distroName)));
    simpl.
  2: { repeat split; try done. rewrite <- app_assoc. apply Hgrow.
       unfold selectDistro. rewrite String.eqb_refl. by rewrite andb_false_r. }
  destruct (String.eqb (interpolate distroName) (currentDistro t)); simpl.
  all: repeat split; try done; try apply Hgrow.
  all: unfold selectDistro; rewrite String.eqb_refl; by rewrite andb_false_r.
Qed.

(** The distribution [init] settles on is the one asked for, in the URL
    first and in the stored preference next, when the registry knows it, and
    the default otherwise; it is known to the registry whenever the default
    is. *)
Theorem chooseDistro_known (dm : DistroManager) (distroParam savedDistro : option string) :
  let wanted := or_else distroParam (or_else savedDistro (defaultDistro dm)) in
  let chosen := chooseDistro dm distroParam savedDistro in
  let known k := truthy (obj_get (distributions dm) k) in
  (known wanted = true → chosen = wanted)
  ∧ (known wanted = false → chosen = defaultDistro dm)
  ∧ (known (defaultDistro dm) = true → known chosen = true)
  ∧ (∀ d, distroParam = Some d → d ≠ EmptyString → wanted = d).
Proof.
  intros wanted chosen known. subst chosen known. unfold chooseDistro. fold wanted.
  repeat split.
  - by intros ->.
  - by intros ->.
  - intros Hdef. by destruct (truthy (obj_get (distributions dm) wanted)) eqn:Hw.
  - intros d -> Hne. subst wanted. simpl. apply String.eqb_neq in Hne. by rewrite Hne.
Qed.

(** ** What [cat], [ls] and [history] print *)


(** [cat] always prints exactly one line: the content of the file, without
    style class, when its first argument resolves to a file, and an error in
    every other case (no argument, no such path, a directory). *)
Theorem handleCat_one_line (args : list string) (t : Terminal) :
  ∃ line,
    terminalOutput (handleCat args t) = terminalOutput t ++ [line]
    ∧ match args with
      | [] => line = mkLine "cat: missing file operand" "output-error"
      | fileName :: _ =>
          match fileSystem t !! resolvePath (Some fileName) t with
          | Some (File content _) => line = mkLine content EmptyString
          | _ => className line = "output-error"
          end
      end.
Proof.
  unfold handleCat. destruct args as [|fileName rest]; [by eexists|].
  unfold fs_get, Js.get.
  destruct (fileSystem t !! resolvePath (Some fileName) t) as [[c p|c p]|];
    [by eexists | by eexists |].
  destruct (Js.is_prototype_name (resolvePath (Some fileName) t)); by eexists.
Qed.

(** [ls] prints nothing for an empty directory, one line that lists the
    children in their order for any other directory, and one error line when
    its target is no directory. *)
Theorem handleLs_lines (args : list string) (t : Terminal) :
  let target :=
    match args with
    | [] => currentPath t
    | a :: _ => resolvePath (Some a) t
    end in
  match fileSystem t !! target with
  | Some (Directory [] _) => handleLs args t = t
  | Some (Directory contents _) =>
      terminalOutput (handleLs args t) =
      terminalOutput t ++
      [mkLine (Js.join "  " (map (lsItem (fileSystem t) target) contents)) EmptyString]
  | _ =>
      ∃ msg, terminalOutput (handleLs args t) =
             terminalOutput t ++ [mkLine msg "output-error"]
  end.
Proof.
  intros target. unfold handleLs. fold target. unfold fs_get, Js.get.
  destruct (fileSystem t !! target) as [[[|c cs] p|c p]|]; try done; [by eexists|].
  destruct (Js.is_prototype_name target); by eexists.
Qed.



Example history_after_ls :
  terminalOutput
    (submit MultiDistro "history" (submit MultiDistro "ls" (scenarioTerminal "user"))) =
  [ mkLine "user@webterm:~$  ls" "output-command";
    mkLine "📄 a.txt" EmptyString;
    mkLine "user@webterm:~$  history" "output-command";
    mkLine "📜 Command History:" EmptyString;
    mkLine "    1 ls" EmptyString;
    mkLine "    2 history" EmptyString ].
Proof. by vm_compute. Qed.

(** ** Phrases and start-up *)



Lemma session_ok_renderLines (ls : list Line) (t : Terminal) :
  session_ok t → session_ok (renderLines ls t).
Proof.
  unfold session_ok.
  rewrite (keeps_renderLines historyIndex), (keeps_renderLines commandHistory),
    (keeps_renderLines selectedSuggestionIndex), (keeps_renderLines suggestions)
    by reflexivity.
  done.
Qed.

(** Both files start the session in order: after [init] the history is
    empty with its cursor at 0, there are no suggestions and no selection,
    the counter is 0, and in the multi-distribution file the current path is
    the home directory of the configured user and the filesystem is the one
    built from the configuration chosen. *)
Theorem init_session_ok (dm : DistroManager) (distroParam savedDistro : option string)
    (fetchConfig : string → Config) (cfg : Config) (now : string) :
  let multi := initMulti dm distroParam savedDistro fetchConfig now in
  let single := bootSingle cfg now in
  let chosen := fetchConfig (chooseDistro dm distroParam savedDistro) in
  session_ok multi ∧ session_ok single
  ∧ commandHistory multi = [] ∧ commandCount multi = 0%nat
  ∧ commandHistory single = [] ∧ commandCount single = 0%nat
  ∧ currentPath multi = "/home/" +:+ user (system chosen)
  ∧ fileSystem multi = setupFileSystemFromConfig chosen
  ∧ currentPath single = "/home/user"
  ∧ fileSystem single = Single.initialFileSystem.
Proof.
  intros multi single chosen. subst multi single chosen.
  unfold initMulti, bootSingle, displayMotdMulti, displayMotd.
  assert (∀ t, historyIndex t = 0%nat → commandHistory t = [] →
               suggestions t = [] → selectedSuggestionIndex t = (-1)%Z →
               session_ok t) as Hok.
  { intros t Hi Hh Hs Hsel. apply session_ok_hidden; try done; rewrite ?Hi, ?Hh; [lia|].
    constructor. }
  split; [|split].
  - case_match; [|by apply Hok]. do 2 apply session_ok_renderLines. by apply Hok.
  - case_match; [|by apply Hok].
    apply (session_ok_renderLines [mkLine EmptyString EmptyString]).
    apply session_ok_renderLines. by apply Hok.
  - repeat split; case_match; simpl;
      rewrite ?(keeps_renderLines commandHistory), ?(keeps_renderLines commandCount),
        ?(keeps_renderLines currentPath), ?(keeps_renderLines fileSystem) by reflexivity;
      try reflexivity;
      simpl;
      rewrite ?(keeps_renderLines commandHistory), ?(keeps_renderLines commandCount),
        ?(keeps_renderLines currentPath), ?(keeps_renderLines fileSystem) by reflexivity;
      reflexivity.
Qed.

Example uptimeText_hour : uptimeText 3605 = "Uptime: 1h 5s".
Proof. reflexivity. Qed.
